(** * opParams: a typed, file-backed parameter store

    Shallow embedding of [common/op_params.py] and the properties of its
    specification.  The Python module keeps one JSON file per parameter in
    a fixed directory, an in-memory cache of the decoded values, and a
    registry of [Param] declarations (default, allowed types, flags).

    Layout of the development:
    - Python values and their runtime types;
    - the [Param] class ([__init__], [_create_attrs], [is_valid]);
    - the [json] module as an interface, with a concrete instance;
    - the program state (the [opParams] object and its environment: the
      parameters directory, the legacy file, the clock, a trace of the
      operating-system calls) and an exception/state monad;
    - the module-level functions and the methods of [opParams];
    - the properties of the specification;
    - further properties of the code. *)

From Stdlib Require Import QArith Ascii String DecimalN DecimalFacts.
From stdpp Require Import base strings list gmap fin_maps.

Set Default Proof Using "Type".
Set Warnings "-register-all".
Local Open Scope string_scope.
Local Open Scope list_scope.

(** ** Python values *)

(** Runtime types, as returned by [type(value)] for the values the [json]
    module produces. *)
Inductive pytype :=
  | NoneType | type_bool | type_int | type_float | type_str | type_list | type_dict.

#[global] Instance pytype_eq_dec : EqDecision pytype.
Proof. solve_decision. Defined.

(** A Python float is modelled by the decimal number its literal denotes:
    [FDec neg m e] is [(-1)^neg * m * 10^e].  Binary rounding is not
    modelled; two decimals denoting the same number are distinct here. *)
Inductive pyfloat :=
  | FNan
  | FInf (neg : bool)
  | FDec (neg : bool) (m : N) (e : Z).

(** The values [json.loads] can return.  A [dict] is its list of items in
    insertion order. *)
Inductive pyval :=
  | VNone
  | VBool (b : bool)
  | VInt (z : Z)
  | VFloat (f : pyfloat)
  | VStr (s : string)
  | VList (l : list pyval)
  | VDict (d : list (string * pyval)).

(** [type(value)] *)
Definition type_of (v : pyval) : pytype :=
  match v with
  | VNone => NoneType
  | VBool _ => type_bool
  | VInt _ => type_int
  | VFloat _ => type_float
  | VStr _ => type_str
  | VList _ => type_list
  | VDict _ => type_dict
  end.

(** ** Exceptions *)

Inductive exn :=
  | Exception (msg : string)
  | AssertionError (msg : string)
  | JSONDecodeError
  | FileNotFoundError (name : string)
  | OSError (name : string)
  | TypeError
  | IndexError
  | KeyError (key : string).

(** The result of a computation that may raise. *)
Inductive outcome (A : Type) :=
  | Ok (a : A)
  | Raise (e : exn).
Arguments Ok {A} a.
Arguments Raise {A} e.

(** ** The [Param] class *)

Definition NUMBER : list pytype := [type_float; type_int].
Definition NONE_OR_NUMBER : list pytype := [NoneType; type_float; type_int].

Record Param := mkParam {
  default_value : pyval;
  allowed_types : list pytype;
  description : option string;
  hidden : bool;
  live : bool;
  static : bool;
  has_allowed_types : bool;
  has_description : bool;
  is_list : bool;
  read_frequency : option Q;
  last_read : Q
}.

(** The [allowed_types] argument of the constructor: a list of types, or
    a single type that [__init__] wraps into a list. *)
Inductive types_arg :=
  | OneType (t : pytype)
  | Types (l : list pytype).

(** [list.remove(x)]: drops the first occurrence of [x]. *)
Fixpoint list_remove (x : pytype) (l : list pytype) : list pytype :=
  match l with
  | [] => []
  | y :: l' => if decide (y = x) then l' else y :: list_remove x l'
  end.

Definition declared_types (a : types_arg) : list pytype :=
  match a with
  | OneType t => [t]
  | Types l => l
  end.

(** [Param.__init__] followed by [_create_attrs].  The assertion on the
    default's type is checked before the list marker is removed.  The
    constructor gets its own copy of the list of types: the sharing of one
    list object between declarations (as with [NUMBER]) only shows when a
    shared list holds the list marker, which no declaration of this module
    does. *)
Definition Param_init (default : pyval) (allowed : types_arg)
    (description : option string) (static live hidden : bool) : outcome Param :=
  let allowed_types := declared_types allowed in
  let has_allowed_types := negb (Nat.eqb (length allowed_types) 0) in
  let has_description := match description with Some _ => true | None => false end in
  let is_list := bool_decide (type_list ∈ allowed_types) in
  let read_frequency := if static then None else Some (if live then 1%Q else 10%Q) in
  let last_read := (-1)%Q in
  if has_allowed_types && negb (bool_decide (type_of default ∈ allowed_types))
  then Raise (AssertionError "Default value type must be in specified allowed_types!")
  else
    let allowed_types := if is_list then list_remove type_list allowed_types
                         else allowed_types in
    Ok (mkParam default allowed_types description hidden live static
          has_allowed_types has_description is_list read_frequency last_read).

(** [Param.is_valid] *)
Definition is_valid (self : Param) (v : pyval) : bool :=
  if negb (has_allowed_types self) then true
  else bool_decide (type_of v ∈ allowed_types self).


(** ** The [json] module

    [json.dumps] and [json.loads] are library functions; the store only
    relies on [loads] inverting [dumps] on the scalar values (the ones a
    registered parameter can hold).  [json_loads] returns [None] where
    Python raises [JSONDecodeError]. *)

Definition scalar (v : pyval) : bool :=
  match v with
  | VList _ | VDict _ => false
  | _ => true
  end.

Class Json := {
  json_dumps : pyval -> string;
  json_loads : string -> option pyval;
  json_loads_dumps : forall v, scalar v = true -> json_loads (json_dumps v) = Some v
}.

(** ** Program state *)

(** The paths the module touches: [PARAMS_DIR], a file [PARAMS_DIR/key]
    and [OLD_PARAMS_FILE]. *)
Inductive path :=
  | PARAMS_DIR
  | param_path (key : string)
  | OLD_PARAMS_FILE.

Definition IMPORTED_PATH : path := param_path ".imported".

(** Operating-system calls, recorded in the order they happen. *)
Inductive event :=
  | EvExists (p : path)
  | EvMakedirs
  | EvListdir
  | EvRead (p : path)
  | EvWrite (p : path) (text : string)
  | EvRemove (p : path)
  | EvPrint (text : string).

#[global] Instance path_eq_dec : EqDecision path.
Proof. solve_decision. Defined.
#[global] Instance event_eq_dec : EqDecision event.
Proof. solve_decision. Defined.

(** The [opParams] object ([fork_params], [params], [_to_delete],
    [_to_reset]) and its environment.  [params_dir] is [None] while the
    directory does not exist, and otherwise maps each file name in it to the
    file's text; [clock] gives the successive readings of [sec_since_boot]. *)
Record state := mkState {
  fork_params : list (string * Param);
  params : gmap string pyval;
  _to_delete : list string;
  _to_reset : list string;
  params_dir : option (gmap string string);
  old_params_file : option string;
  clock : nat -> Q;
  ticks : nat;
  trace : list event
}.

Definition set_fork_params (x : list (string * Param)) (s : state) : state :=
  mkState x (params s) (_to_delete s) (_to_reset s) (params_dir s)
    (old_params_file s) (clock s) (ticks s) (trace s).
Definition set_params (x : gmap string pyval) (s : state) : state :=
  mkState (fork_params s) x (_to_delete s) (_to_reset s) (params_dir s)
    (old_params_file s) (clock s) (ticks s) (trace s).
Definition set_to_delete (x : list string) (s : state) : state :=
  mkState (fork_params s) (params s) x (_to_reset s) (params_dir s)
    (old_params_file s) (clock s) (ticks s) (trace s).
Definition set_to_reset (x : list string) (s : state) : state :=
  mkState (fork_params s) (params s) (_to_delete s) x (params_dir s)
    (old_params_file s) (clock s) (ticks s) (trace s).
Definition set_params_dir (x : option (gmap string string)) (s : state) : state :=
  mkState (fork_params s) (params s) (_to_delete s) (_to_reset s) x
    (old_params_file s) (clock s) (ticks s) (trace s).
Definition set_old_params_file (x : option string) (s : state) : state :=
  mkState (fork_params s) (params s) (_to_delete s) (_to_reset s) (params_dir s)
    x (clock s) (ticks s) (trace s).
Definition set_ticks (x : nat) (s : state) : state :=
  mkState (fork_params s) (params s) (_to_delete s) (_to_reset s) (params_dir s)
    (old_params_file s) (clock s) x (trace s).
Definition set_trace (x : list event) (s : state) : state :=
  mkState (fork_params s) (params s) (_to_delete s) (_to_reset s) (params_dir s)
    (old_params_file s) (clock s) (ticks s) x.

(** ** The monad: state passing with exceptions

    A raised exception keeps the state reached when it was raised. *)
Definition M (A : Type) : Type := state -> outcome A * state.

#[global] Instance M_ret : MRet M := fun A a s => (Ok a, s).
#[global] Instance M_bind : MBind M := fun A B f m s =>
  match m s with
  | (Ok a, s') => f a s'
  | (Raise e, s') => (Raise e, s')
  end.

Definition raise {A} (e : exn) : M A := fun s => (Raise e, s).

(** [try: body except: handler] *)
Definition try_except {A} (body : M A) (handler : exn -> M A) : M A := fun s =>
  match body s with
  | (Ok a, s') => (Ok a, s')
  | (Raise e, s') => handler e s'
  end.

Definition gets {A} (f : state -> A) : M A := fun s => (Ok (f s), s).
Definition modify (f : state -> state) : M unit := fun s => (Ok tt, f s).
Definition lift {A} (o : outcome A) : M A := fun s => (o, s).
Definition log (e : event) : M unit := modify (fun s => set_trace (trace s ++ [e]) s).

(** [for x in l: body x] *)
Fixpoint for_each {A} (l : list A) (body : A -> M unit) : M unit :=
  match l with
  | [] => mret tt
  | x :: l' => body x ;; for_each l' body
  end.

(** ** Dictionaries kept in insertion order *)

Fixpoint dict_get {A} (key : string) (d : list (string * A)) : option A :=
  match d with
  | [] => None
  | (k, a) :: d' => if decide (k = key) then Some a else dict_get key d'
  end.

(** [d[key] = a] *)
Fixpoint dict_set {A} (key : string) (a : A) (d : list (string * A)) : list (string * A) :=
  match d with
  | [] => [(key, a)]
  | (k, b) :: d' => if decide (k = key) then (k, a) :: d' else (k, b) :: dict_set key a d'
  end.

(** ** Environment primitives *)

Definition sec_since_boot : M Q := fun s =>
  (Ok (clock s (ticks s)), set_ticks (S (ticks s)) s).

Definition contains_char (c : ascii) (s : string) : bool :=
  existsb (fun x => bool_decide (x = c)) (list_ascii_of_string s).

(** A key names a file of the parameters directory when
    [os.path.join(PARAMS_DIR, key)] is a plain entry of that directory.  The
    file system of the model is that directory (flat) and the legacy file:
    a write through any other name raises. *)
Definition valid_name (key : string) : bool :=
  negb (bool_decide (key = "")) && negb (bool_decide (key = ".")) &&
  negb (bool_decide (key = "..")) && negb (contains_char "/"%char key) &&
  negb (contains_char "000"%char key).

Definition os_path_exists (p : path) : M bool :=
  log (EvExists p) ;;
  gets (fun s =>
    match p with
    | PARAMS_DIR => bool_decide (is_Some (params_dir s))
    | param_path key =>
        match params_dir s with
        | Some files => bool_decide (is_Some (files !! key))
        | None => false
        end
    | OLD_PARAMS_FILE => bool_decide (is_Some (old_params_file s))
    end).

Definition os_makedirs : M unit :=
  log EvMakedirs ;;
  modify (set_params_dir (Some ∅)).

(** [os.listdir(PARAMS_DIR)]; the order of the listing is the order in
    which the map enumerates its keys. *)
Definition os_listdir : M (list string) :=
  dir ← gets params_dir;
  match dir with
  | Some files => log EvListdir ;; mret (map_to_list files).*1
  | None => raise (FileNotFoundError "")
  end.

(** [with open(p, 'r') as f: f.read()] *)
Definition open_read (p : path) : M string :=
  s ← gets (fun s => s);
  let found :=
    match p with
    | PARAMS_DIR => None
    | param_path key => files ← params_dir s; files !! key
    | OLD_PARAMS_FILE => old_params_file s
    end in
  match found with
  | Some text => log (EvRead p) ;; mret text
  | None =>
      raise (FileNotFoundError
               match p with param_path key => key | _ => "" end)
  end.

(** [with atomic_write(PARAMS_DIR/key, overwrite=True) as f: f.write(text)]:
    the file holds [text] afterwards, or the call raises and nothing has
    changed. *)
Definition atomic_write (key : string) (text : string) : M unit :=
  dir ← gets params_dir;
  match dir with
  | Some files =>
      if valid_name key then
        log (EvWrite (param_path key) text) ;;
        modify (set_params_dir (Some (<[key := text]> files)))
      else raise (OSError key)
  | None => raise (FileNotFoundError key)
  end.

(** [os.remove(PARAMS_DIR/key)] *)
Definition os_remove (key : string) : M unit :=
  dir ← gets params_dir;
  match dir ≫= (.!! key) with
  | Some _ =>
      log (EvRemove (param_path key)) ;;
      modify (set_params_dir (delete key <$> dir))
  | None => raise (FileNotFoundError key)
  end.

(** [warning(msg)]: prints the message and returns [None].  The colour
    codes of [common.colors] around the message are left out. *)
Definition warning (msg : string) : M pyval :=
  log (EvPrint ("opParams WARNING: " +:+ msg)) ;; mret VNone.

(** [error(msg)], the counterpart of [warning]; nothing in the module
    calls it. *)
Definition error (msg : string) : M pyval :=
  log (EvPrint ("opParams ERROR: " +:+ msg)) ;; mret VNone.

(** [print(x)] for the one value the module prints, [None]. *)
Definition print (v : pyval) : M unit :=
  log (EvPrint match v with VNone => "None" | _ => "" end).

(** ** Subscripts and iteration on Python values *)

(** [iter(v)]: the keys of a dict, the elements of a list, the characters
    of a str; other values are not iterable. *)
Definition py_iter (v : pyval) : outcome (list pyval) :=
  match v with
  | VDict d => Ok (map (fun kv => VStr kv.1) d)
  | VList l => Ok l
  | VStr s => Ok (map (fun c => VStr (String c "")) (list_ascii_of_string s))
  | _ => Raise TypeError
  end.

(** [l[i]] for a sequence of length [length l], with Python's negative
    indices. *)
Definition py_index {A} (l : list A) (i : Z) : outcome A :=
  let n := Z.of_nat (length l) in
  let j := if (i <? 0)%Z then (i + n)%Z else i in
  if (j <? 0)%Z then Raise IndexError
  else match l !! Z.to_nat j with
       | Some x => Ok x
       | None => Raise IndexError
       end.

(** [v[key]] *)
Definition py_getitem (v key : pyval) : outcome pyval :=
  match v with
  | VDict d =>
      match key with
      | VStr k => match dict_get k d with Some x => Ok x | None => Raise (KeyError k) end
      | VList _ | VDict _ => Raise TypeError
      | _ => Raise (KeyError "")
      end
  | VList l =>
      match key with
      | VInt i => py_index l i
      | VBool b => py_index l (if b then 1 else 0)%Z
      | _ => Raise TypeError
      end
  | VStr s =>
      match key with
      | VInt i => py_index (map (fun c => VStr (String c "")) (list_ascii_of_string s)) i
      | VBool b =>
          py_index (map (fun c => VStr (String c "")) (list_ascii_of_string s))
            (if b then 1 else 0)%Z
      | _ => Raise TypeError
      end
  | _ => Raise TypeError
  end.

Fixpoint dict_alter {A} (f : A -> A) (key : string) (d : list (string * A)) : list (string * A) :=
  match d with
  | [] => []
  | (k, a) :: d' => if decide (k = key) then (k, f a) :: d' else (k, a) :: dict_alter f key d'
  end.

Definition set_last_read (t : Q) (p : Param) : Param :=
  mkParam (default_value p) (allowed_types p) (description p) (hidden p) (live p)
    (static p) (has_allowed_types p) (has_description p) (is_list p)
    (read_frequency p) t.

(** What [get] returns: one value, or the mapping of all visible ones. *)
Inductive get_result :=
  | one_value (v : pyval)
  | all_params (m : gmap string pyval).

(** Evaluates a dict display [{k1: e1, k2: e2, ...}] whose values are
    constructor calls. *)
Fixpoint dict_display (items : list (string * outcome Param)) (acc : list (string * Param))
    : outcome (list (string * Param)) :=
  match items with
  | [] => Ok acc
  | (k, Ok p) :: items' => dict_display items' (dict_set k p acc)
  | (k, Raise e) :: _ => Raise e
  end.

(** ** The module's functions and the [opParams] class *)

Section op_params.
Context `{Json}.

(** [json.loads(text)] *)
Definition loads (text : string) : M pyval :=
  match json_loads text with
  | Some v => mret v
  | None => raise JSONDecodeError
  end.

(** Returns [(None, False)] if a json error occurs. *)
Definition _read_param (key : string) : M (pyval * bool) :=
  try_except
    (text ← open_read (param_path key);
     value ← loads text;
     mret (value, true))
    (fun e => match e with
              | JSONDecodeError => mret (VNone, false)
              | _ => raise e
              end).

Definition _write_param (key : string) (value : pyval) : M unit :=
  atomic_write key (json_dumps value).

(** [open(IMPORTED_PATH, 'w').close()] *)
Definition touch_imported : M unit :=
  atomic_write ".imported" "".

(** The body of the [try] block of [_import_params]. *)
Definition _import_params_try : M unit :=
  text ← open_read OLD_PARAMS_FILE;
  old_params ← loads text;
  keys ← lift (py_iter old_params);
  for_each keys (fun key =>
    value ← lift (py_getitem old_params key);
    match key with
    | VStr k => _write_param k value
    | _ => raise TypeError  (* os.path.join only joins str *)
    end) ;;
  touch_imported.

Definition _import_params : M unit :=
  needs_import ←
    (old ← os_path_exists OLD_PARAMS_FILE;
     if (old : bool) then imported ← os_path_exists IMPORTED_PATH; mret (negb imported)
     else mret false);
  if (needs_import : bool) then
    try_except _import_params_try (fun _ => mret tt)
  else mret tt.

(** [self.fork_params[key]] *)
Definition fork_params_getitem (key : string) : M Param :=
  fp ← gets fork_params;
  match dict_get key fp with
  | Some p => mret p
  | None => raise (KeyError key)
  end.

(** [self.params[key]] *)
Definition params_getitem (key : string) : M pyval :=
  ps ← gets params;
  match ps !! key with
  | Some v => mret v
  | None => raise (KeyError key)
  end.

(** [self.params[key] = value] *)
Definition params_setitem (key : string) (v : pyval) : M unit :=
  modify (fun s => set_params (<[key := v]> (params s)) s).

Definition _check_key_exists (key met : string) : M unit :=
  fp ← gets fork_params;
  match dict_get key fp with
  | Some _ => mret tt
  | None =>
      raise (Exception ("opParams: Tried to " +:+ met +:+
                        " an unknown parameter! Key not in fork_params: " +:+ key))
  end.

(** One iteration of the loop of [_load_params]; [acc] is the local
    dict [params]. *)
Definition _load_params_step (acc : gmap string pyval) (key : string)
    : M (gmap string pyval) :=
  fp ← gets fork_params;
  if String.prefix "." key || negb (bool_decide (is_Some (dict_get key fp))) then mret acc
  else
    '(value, success) ← _read_param key;
    value ← (if (success : bool) then mret value
             else
               p ← fork_params_getitem key;
               let value := default_value p in
               _write_param key value ;; mret value);
    mret (<[key := value]> acc).

Fixpoint _load_params_loop (acc : gmap string pyval) (keys : list string)
    : M (gmap string pyval) :=
  match keys with
  | [] => mret acc
  | key :: keys' =>
      acc' ← _load_params_step acc key;
      _load_params_loop acc' keys'
  end.

Definition _load_params (can_import : bool) : M (gmap string pyval) :=
  present ← os_path_exists PARAMS_DIR;
  (if (present : bool) then mret tt
   else
     os_makedirs ;;
     if can_import then _import_params else mret tt) ;;
  keys ← os_listdir;
  _load_params_loop ∅ keys.

Definition _get_all_params (to_update : bool) : M (gmap string pyval) :=
  (if to_update then
     ps ← _load_params false;
     modify (set_params ps)
   else mret tt) ;;
  s ← gets (fun s => s);
  mret (foldl (fun acc kp =>
                 match params s !! kp.1 with
                 | Some v => if negb (hidden kp.2) then <[kp.1 := v]> acc else acc
                 | None => acc
                 end) ∅ (fork_params s)).

Definition ge_rate (elapsed : Q) (rate : option Q) : M bool :=
  match rate with
  | Some r => mret (Qle_bool r elapsed)
  | None => raise TypeError
  end.

Definition get (key : option string) (force_update : bool) : M get_result :=
  match key with
  | None => m ← _get_all_params force_update; mret (all_params m)
  | Some key =>
      _check_key_exists key "get" ;;
      param_info ← fork_params_getitem key;
      let rate := read_frequency param_info in
      due ←
        (if negb (static param_info) then
           now ← sec_since_boot;
           p ← fork_params_getitem key;
           ge_rate (now - last_read p) rate
         else mret false);
      (if due || force_update then
         '(value, success) ← _read_param key;
         now ← sec_since_boot;
         modify (fun s => set_fork_params
                            (dict_alter (set_last_read now) key (fork_params s)) s) ;;
         value ← (if (success : bool) then mret value
                  else
                    let value := default_value param_info in
                    _write_param key value ;; mret value);
         params_setitem key value
       else mret tt) ;;
      value ← params_getitem key;
      if is_valid param_info value then mret (one_value value)
      else
        none ← warning "User's value type is not valid! Returning default";
        print none ;;
        mret (one_value (default_value param_info))
  end.

Definition put (key : string) (value : pyval) : M unit :=
  _check_key_exists key "put" ;;
  p ← fork_params_getitem key;
  if negb (is_valid p value) then
    raise (Exception "opParams: Tried to put a value of invalid type!")
  else
    params_setitem key value ;;
    _write_param key value.

Definition _add_default_params : M unit :=
  fp ← gets fork_params;
  for_each fp (fun '(key, param) =>
    ps ← gets params;
    match ps !! key with
    | None =>
        params_setitem key (default_value param) ;;
        v ← params_getitem key;
        _write_param key v
    | Some v =>
        if negb (is_valid param v) then
          none ← warning ("Value type of user's " +:+ key +:+
                          " param not in allowed types, replacing with default!");
          print none ;;
          params_setitem key (default_value param) ;;
          v ← params_getitem key;
          _write_param key v
        else mret tt
    end).

(** The loop runs over [list(self.params)], enumerated in the order of the
    map; each iteration only touches its own key. *)
Definition _delete_and_reset : M unit :=
  s ← gets (fun s => s);
  for_each (map_to_list (params s)).*1 (fun key =>
    to_delete ← gets _to_delete;
    to_reset ← gets _to_reset;
    fp ← gets fork_params;
    if bool_decide (key ∈ to_delete) then
      modify (fun s => set_params (delete key (params s)) s) ;;
      os_remove key
    else if bool_decide (key ∈ to_reset) && bool_decide (is_Some (dict_get key fp)) then
      p ← fork_params_getitem key;
      params_setitem key (default_value p) ;;
      v ← params_getitem key;
      _write_param key v
    else mret tt).

End op_params.

(** ** The declared parameters *)

Definition nl : string := String "010"%char "".

(** The dict display assigned to [self.fork_params] in [__init__]. *)
Definition declared_params : list (string * outcome Param) :=
  [ ("global_df_mod",
     Param_init (VFloat (FDec false 10 (-1))) (Types NUMBER)
       (Some ("동적 추적에서 사용하는 현재 거리의 승수입니다. 범위는 0.85에서 2.5로 제한됩니다." +:+ nl +:+
              "값이 작을수록 가까워지고 클수록 멀어집니다." +:+ nl +:+
              "이것은 활성 상태인 프로필로 곱해집니다. 비활성화하려면 1로 설정하십시오."))
       false true false);
    ("min_TR",
     Param_init (VFloat (FDec false 9 (-1))) (Types NUMBER)
       (Some ("허용되는 최소 추종 거리(초)입니다. 기본값은 0.9초입니다." +:+ nl +:+
              "범위는 0.85에서 2.7로 제한됩니다."))
       false true false);
    ("alca_no_nudge_speed",
     Param_init (VFloat (FDec false 900 (-1))) (Types NUMBER)
       (Some "이 속도(mph) 이상에서는 차선 변경이 즉시 시작됩니다. 작동은 저장값 아래에 있습니다")
       false false false);
    ("steer_ratio",
     Param_init VNone (Types NONE_OR_NUMBER)
       (Some ("(Can be: None, or a float) None을 입력하면 openpilot은 학습된 sR을 사용합니다.." +:+ nl +:+
              "float/int를 사용하는 경우 openpilot은 대신 해당 핸들링 조정 비율을 사용합니다."))
       false true false);
    ("upload_onroad",
     Param_init (VBool true) (OneType type_bool)
       (Some "기본적으로 openpilot은 운전하는 동안 작은 qlog를 업로드합니다. 오프로드가 될 때까지 기다리려면 False로 설정하십시오.")
       true false false);
    ("update_behavior",
     Param_init (VStr "alert") (OneType type_str)
       (Some ("Can be: ('off', 'alert', 'auto') without quotes" +:+ nl +:+
              "off will never update, alert shows an alert on-screen" +:+ nl +:+
              "auto will reboot the device when an update is seen"))
       true false false);
    ("dynamic_gas",
     Param_init (VBool false) (OneType type_bool)
       (Some "Whether to use dynamic gas if your car is supported")
       false false false);
    ("hide_auto_df_alerts",
     Param_init (VBool false) (OneType type_bool)
       (Some "DF모델이 선택한 프로필을 보여주는 경고를 숨깁니다.")
       false false false);
    ("df_button_alerts",
     Param_init (VStr "audible") (OneType type_str)
       (Some ("Can be: ('off', 'silent', 'audible')" +:+ nl +:+
              "dynamic following profile을 변경할 때 알림을 받는 방법 "))
       false false false);
    ("disable_charging",
     Param_init (VInt 30) (Types NUMBER)
       (Some "How many hours until charging is disabled while idle")
       true false false);
    ("hide_model_long",
     Param_init (VBool false) (OneType type_bool)
       (Some "화면에서 Model Long 버튼을 숨기려면 이 옵션을 활성화합니다.")
       true false false);
    ("use_steering_model",
     Param_init (VBool false) (OneType type_bool)
       (Some ("TSSP Corolla에서 훈련된 실험적 ML 기반 측면 컨트롤러를 사용하려면 이 옵션을 활성화합니다." +:+ nl +:+
              "이것은 다른 모든 조정 매개변수를 무시합니다." +:+ nl +:+
              "경고: 모델은 언제든지 예기치 않게 작동할 수 있으므로 항상 주의하십시오."))
       true false false);
    ("rav4TSS2_use_indi",
     Param_init (VBool false) (OneType type_bool)
       (Some "TSS2 RAV4에서 횡조정 대해 INDI를 사용하려면 이 옵션을 활성화하세요.")
       true false false);
    ("standstill_hack",
     Param_init (VBool false) (OneType type_bool)
       (Some "일부 자동차는 정지 및 이동을 지원합니다. 이 기능을 활성화하기만 하면 됩니다.")
       true false false);
    ("toyota_distance_btn",
     Param_init (VBool false) (OneType type_bool)
       (Some ("다이내믹 팔로우 프로파일을 제어하기 위해 스티어링 휠 거리 버튼을 사용하려면 True로 설정하십시오.." +:+ nl +:+
              "2020년 9월 펌웨어 이상이 설치된 sDSU가 있는 TSS2 차량 및 TSS1 차량에서 작동."))
       true false false);
    ("dynamic_follow",
     Param_init (VStr "stock") (OneType type_str) None true false true);
    ("lane_speed_alerts",
     Param_init (VStr "silent") (OneType type_str) None true false true) ].

Definition username_param : outcome Param :=
  Param_init VNone (Types [NoneType; type_str; type_bool])
    (Some ("Your identifier provided with any crash logs sent to Sentry." +:+ nl +:+
           "Helps the developer reach out to you if anything goes wrong"))
    false false false.

Definition op_edit_live_mode_param : outcome Param :=
  Param_init (VBool false) (OneType type_bool)
    (Some "This parameter controls which mode opEdit starts in")
    false false true.

Section op_params_init.
Context `{Json}.

(** [self.fork_params[key] = Param(...)] *)
Definition fork_params_setitem (key : string) (p : outcome Param) : M unit :=
  p ← lift p;
  modify (fun s => set_fork_params (dict_set key p (fork_params s)) s).

(** Does first time initializing of default params. *)
Definition _run_init : M unit :=
  fork_params_setitem "username" username_param ;;
  fork_params_setitem "op_edit_live_mode" op_edit_live_mode_param ;;
  ps ← _load_params true;
  modify (set_params ps) ;;
  _add_default_params ;;
  _delete_and_reset.

Definition __init__ : M unit :=
  fp ← lift (dict_display declared_params []);
  modify (set_fork_params fp) ;;
  modify (set_to_delete ["use_lqr"; "disengage_on_gas"; "corollaTSS2_use_indi"; "prius_use_pid"]) ;;
  modify (set_to_reset []) ;;
  _run_init.

End op_params_init.

(** ** A JSON codec

    An executable instance of the [json] interface: the text [json.dumps]
    writes with its default options and a parser for JSON text as
    [json.loads] accepts it.  A [str] holds code points below 256, one per
    character; [\uXXXX] escapes above that are outside the model. *)

Module PyJson.

Definition dquote : ascii := ascii_of_nat 34.
Definition backslash : ascii := ascii_of_nat 92.

Definition chars (s : string) : list ascii := list_ascii_of_string s.

Definition is_digit (c : ascii) : bool :=
  match c with
  | "0" | "1" | "2" | "3" | "4" | "5" | "6" | "7" | "8" | "9" => true
  | _ => false
  end%char.

Definition is_ws (c : ascii) : bool :=
  match c with
  | " " | "009" | "010" | "013" => true
  | _ => false
  end%char.

Fixpoint skip_ws (s : list ascii) : list ascii :=
  match s with
  | c :: s' => if is_ws c then skip_ws s' else s
  | [] => []
  end.

(** [strip_prefix p s]: the rest of [s] after the literal [p]. *)
Fixpoint strip_prefix (p s : list ascii) : option (list ascii) :=
  match p, s with
  | [], _ => Some s
  | a :: p', b :: s' => if decide (a = b) then strip_prefix p' s' else None
  | _ :: _, [] => None
  end.

(** *** Numbers *)

Fixpoint span_digits (s : list ascii) : list ascii * list ascii :=
  match s with
  | c :: s' =>
      if is_digit c then let '(d, r) := span_digits s' in (c :: d, r)
      else ([], s)
  | [] => ([], [])
  end.

Fixpoint uint_of_chars (l : list ascii) : Decimal.uint :=
  match l with
  | [] => Decimal.Nil
  | c :: l' =>
      let u := uint_of_chars l' in
      match c with
      | "0" => Decimal.D0 u | "1" => Decimal.D1 u | "2" => Decimal.D2 u
      | "3" => Decimal.D3 u | "4" => Decimal.D4 u | "5" => Decimal.D5 u
      | "6" => Decimal.D6 u | "7" => Decimal.D7 u | "8" => Decimal.D8 u
      | "9" => Decimal.D9 u | _ => Decimal.Nil
      end%char
  end.

Fixpoint chars_of_uint (d : Decimal.uint) : list ascii :=
  match d with
  | Decimal.Nil => []
  | Decimal.D0 u => "0"%char :: chars_of_uint u
  | Decimal.D1 u => "1"%char :: chars_of_uint u
  | Decimal.D2 u => "2"%char :: chars_of_uint u
  | Decimal.D3 u => "3"%char :: chars_of_uint u
  | Decimal.D4 u => "4"%char :: chars_of_uint u
  | Decimal.D5 u => "5"%char :: chars_of_uint u
  | Decimal.D6 u => "6"%char :: chars_of_uint u
  | Decimal.D7 u => "7"%char :: chars_of_uint u
  | Decimal.D8 u => "8"%char :: chars_of_uint u
  | Decimal.D9 u => "9"%char :: chars_of_uint u
  end.

Definition N_of_chars (l : list ascii) : N := N.of_uint (uint_of_chars l).
Definition chars_of_N (n : N) : list ascii := chars_of_uint (N.to_uint n).

(** The integer part of a JSON number: [0], or digits not starting
    with [0]. *)
Definition canonical_int (l : list ascii) : bool :=
  match l with
  | [] => false
  | c :: l' => negb (bool_decide (c = "0"%char)) || bool_decide (l' = [])
  end.

(** A JSON number: an optional minus sign, an integer part, an optional
    fraction and an optional exponent.  It is an int when neither the
    fraction nor the exponent is present, else a float. *)
Definition parse_sign (s : list ascii) : bool * list ascii :=
  match s with
  | c :: r => if bool_decide (c = "-"%char) then (true, r) else (false, s)
  | [] => (false, s)
  end.

(** The fraction: a point followed by at least one digit. *)
Definition parse_frac (s : list ascii) : list ascii * list ascii :=
  match s with
  | c :: r =>
      if bool_decide (c = "."%char) then
        let '(f, r') := span_digits r in
        match f with [] => ([], s) | _ => (f, r') end
      else ([], s)
  | [] => ([], s)
  end.

(** The exponent: [e] or [E], an optional sign, at least one digit. *)
Definition parse_exp (s : list ascii) : option Z * list ascii :=
  match s with
  | c :: r =>
      if bool_decide (c = "e"%char) || bool_decide (c = "E"%char) then
        let '(eneg, r1) :=
          match r with
          | c' :: r' =>
              if bool_decide (c' = "+"%char) then (false, r')
              else if bool_decide (c' = "-"%char) then (true, r')
              else (false, r)
          | [] => (false, r)
          end in
        let '(x, r2) := span_digits r1 in
        match x with
        | [] => (None, s)
        | _ => (Some (if eneg : bool then (- Z.of_N (N_of_chars x))%Z
                      else Z.of_N (N_of_chars x)), r2)
        end
      else (None, s)
  | [] => (None, s)
  end.

Definition parse_number (s : list ascii) : option (pyval * list ascii) :=
  let '(neg, s1) := parse_sign s in
  let '(ip, s2) := span_digits s1 in
  if negb (canonical_int ip) then None
  else
    let '(frac, s3) := parse_frac s2 in
    let '(exp, s4) := parse_exp s3 in
    match frac, exp with
    | [], None =>
        Some (VInt (if neg : bool then (- Z.of_N (N_of_chars ip))%Z
                    else Z.of_N (N_of_chars ip)), s4)
    | _, _ =>
        Some (VFloat (FDec neg (N_of_chars (ip ++ frac))
                        (default 0%Z exp - Z.of_nat (length frac))), s4)
    end.

Definition dumps_int (z : Z) : list ascii :=
  (if (z <? 0)%Z then ["-"%char] else []) ++ chars_of_N (Z.abs_N z).

(** Fixed notation for a negative exponent, [<m>e+<e>] otherwise. *)
Definition dumps_float (f : pyfloat) : list ascii :=
  match f with
  | FNan => chars "NaN"
  | FInf neg => (if neg then ["-"%char] else []) ++ chars "Infinity"
  | FDec neg m e =>
      (if neg then ["-"%char] else []) ++
      if (e <? 0)%Z then
        let k := Z.to_nat (- e) in
        let d := chars_of_N m in
        let d := replicate (S k - length d) "0"%char ++ d in
        take (length d - k) d ++ "."%char :: drop (length d - k) d
      else chars_of_N m ++ chars "e+" ++ chars_of_N (Z.to_N e)
  end.

(** *** Strings *)

Definition hex_digit (n : N) : ascii :=
  ascii_of_N (if (n <? 10)%N then 48 + n else 87 + n).

Definition hex_value (c : ascii) : option N :=
  let n := N_of_ascii c in
  if (48 <=? n)%N && (n <=? 57)%N then Some (n - 48)%N
  else if (97 <=? n)%N && (n <=? 102)%N then Some (n - 87)%N
  else if (65 <=? n)%N && (n <=? 70)%N then Some (n - 55)%N
  else None.

(** The text [json.dumps] writes for one character with
    [ensure_ascii=True]. *)
Definition escape_char (c : ascii) : list ascii :=
  let n := N_of_ascii c in
  if bool_decide (c = dquote) then [backslash; dquote]
  else if bool_decide (c = backslash) then [backslash; backslash]
  else if (n =? 10)%N then [backslash; "n"%char]
  else if (n =? 13)%N then [backslash; "r"%char]
  else if (n =? 9)%N then [backslash; "t"%char]
  else if (n =? 8)%N then [backslash; "b"%char]
  else if (n =? 12)%N then [backslash; "f"%char]
  else if (n <? 32)%N || (127 <? n)%N then
    [backslash; "u"%char; "0"%char; "0"%char; hex_digit (n / 16); hex_digit (n mod 16)]
  else [c].

Definition dumps_str (s : string) : list ascii :=
  dquote :: flat_map escape_char (chars s) ++ [dquote].

(** The body of a string literal, up to and including the closing quote;
    [acc] holds the characters read so far, last first. *)
Fixpoint parse_str_body (s : list ascii) (acc : list ascii)
    : option (list ascii * list ascii) :=
  match s with
  | [] => None
  | c :: s' =>
      if bool_decide (c = dquote) then Some (rev acc, s')
      else if bool_decide (c = backslash) then
        match s' with
        | [] => None
        | e :: s'' =>
            if bool_decide (e = "u"%char) then
              match s'' with
              | h1 :: h2 :: h3 :: h4 :: s5 =>
                  match hex_value h1, hex_value h2, hex_value h3, hex_value h4 with
                  | Some a, Some b, Some c', Some d =>
                      let code := (((a * 16 + b) * 16 + c') * 16 + d)%N in
                      if (code <? 256)%N then parse_str_body s5 (ascii_of_N code :: acc)
                      else None
                  | _, _, _, _ => None
                  end
              | _ => None
              end
            else
              let simple x := parse_str_body s'' (x :: acc) in
              if bool_decide (e = dquote) then simple dquote
              else if bool_decide (e = backslash) then simple backslash
              else if bool_decide (e = "/"%char) then simple "/"%char
              else if bool_decide (e = "b"%char) then simple "008"%char
              else if bool_decide (e = "f"%char) then simple "012"%char
              else if bool_decide (e = "n"%char) then simple "010"%char
              else if bool_decide (e = "r"%char) then simple "013"%char
              else if bool_decide (e = "t"%char) then simple "009"%char
              else None
        end
      else if (N_of_ascii c <? 32)%N then None
      else parse_str_body s' (c :: acc)
  end.

Definition parse_str (s : list ascii) : option (string * list ascii) :=
  match s with
  | c :: s' =>
      if bool_decide (c = dquote) then
        prod_map string_of_list_ascii id <$> parse_str_body s' []
      else None
  | [] => None
  end.

(** *** Values *)

Definition starts_with (c : ascii) (s : list ascii) : option (list ascii) :=
  match s with
  | c' :: r => if bool_decide (c' = c) then Some r else None
  | [] => None
  end.

(** [parse_value n s] reads one value at the head of [s]; [n] bounds the
    number of nested calls. *)
Fixpoint parse_value (n : nat) (s : list ascii) : option (pyval * list ascii) :=
  match n with
  | O => None
  | S n' =>
      match strip_prefix (chars "null") s with
      | Some r => Some (VNone, r)
      | None =>
      match strip_prefix (chars "true") s with
      | Some r => Some (VBool true, r)
      | None =>
      match strip_prefix (chars "false") s with
      | Some r => Some (VBool false, r)
      | None =>
      match strip_prefix (chars "NaN") s with
      | Some r => Some (VFloat FNan, r)
      | None =>
      match strip_prefix (chars "Infinity") s with
      | Some r => Some (VFloat (FInf false), r)
      | None =>
      match strip_prefix (chars "-Infinity") s with
      | Some r => Some (VFloat (FInf true), r)
      | None =>
      match starts_with dquote s with
      | Some _ => prod_map VStr id <$> parse_str s
      | None =>
      match starts_with "["%char s with
      | Some r =>
          match starts_with "]"%char (skip_ws r) with
          | Some r' => Some (VList [], r')
          | None => parse_array n' (skip_ws r) []
          end
      | None =>
      match starts_with "{"%char s with
      | Some r =>
          match starts_with "}"%char (skip_ws r) with
          | Some r' => Some (VDict [], r')
          | None => parse_object n' (skip_ws r) []
          end
      | None => parse_number s
      end end end end end end end end end
  end
with parse_array (n : nat) (s : list ascii) (acc : list pyval)
    : option (pyval * list ascii) :=
  match n with
  | O => None
  | S n' =>
      match parse_value n' s with
      | Some (v, r) =>
          match starts_with ","%char (skip_ws r) with
          | Some r' => parse_array n' (skip_ws r') (v :: acc)
          | None =>
              match starts_with "]"%char (skip_ws r) with
              | Some r' => Some (VList (rev (v :: acc)), r')
              | None => None
              end
          end
      | None => None
      end
  end
with parse_object (n : nat) (s : list ascii) (acc : list (string * pyval))
    : option (pyval * list ascii) :=
  match n with
  | O => None
  | S n' =>
      match parse_str s with
      | Some (k, r) =>
          match starts_with ":"%char (skip_ws r) with
          | Some r1 =>
              match parse_value n' (skip_ws r1) with
              | Some (v, r2) =>
                  match starts_with ","%char (skip_ws r2) with
                  | Some r3 => parse_object n' (skip_ws r3) (dict_set k v acc)
                  | None =>
                      match starts_with "}"%char (skip_ws r2) with
                      | Some r3 => Some (VDict (dict_set k v acc), r3)
                      | None => None
                      end
                  end
              | None => None
              end
          | None => None
          end
      | None => None
      end
  end.

(** [", ".join(items)] *)
Fixpoint join (items : list (list ascii)) : list ascii :=
  match items with
  | [] => []
  | [x] => x
  | x :: items' => x ++ chars ", " ++ join items'
  end.

Fixpoint dumps_chars (v : pyval) : list ascii :=
  match v with
  | VNone => chars "null"
  | VBool true => chars "true"
  | VBool false => chars "false"
  | VInt z => dumps_int z
  | VFloat f => dumps_float f
  | VStr s => dumps_str s
  | VList l => "["%char :: join (map dumps_chars l) ++ ["]"%char]
  | VDict d =>
      "{"%char ::
      join (map (fun kv => dumps_str kv.1 ++ chars ": " ++ dumps_chars kv.2) d) ++
      ["}"%char]
  end.

Definition dumps (v : pyval) : string := string_of_list_ascii (dumps_chars v).

Definition loads (text : string) : option pyval :=
  let s := chars text in
  match parse_value (S (length s)) (skip_ws s) with
  | Some (v, r) => match skip_ws r with [] => Some v | _ => None end
  | None => None
  end.

End PyJson.

(** ** Vocabulary of the properties *)

(** The registry [__init__] builds: the declared parameters followed by the
    two entries [_run_init] adds. *)
Definition registry : list (string * Param) :=
  match dict_display declared_params [], username_param, op_edit_live_mode_param with
  | Ok fp, Ok u, Ok o => dict_set "op_edit_live_mode" o (dict_set "username" u fp)
  | _, _, _ => []
  end.

(** A state of an initialized store: [fork_params] is the registry, up to
    the [last_read] stamps that [get] updates. *)
Definition initialized (st : state) : Prop :=
  map (fun kp => (kp.1, set_last_read (-1) kp.2)) (fork_params st) = registry.

Definition scalar_type (t : pytype) : bool :=
  match t with
  | type_list | type_dict => false
  | _ => true
  end.

(** What every entry of the registry satisfies. *)
Definition param_ok (key : string) (p : Param) : bool :=
  valid_name key && negb (String.prefix "." key) &&
  has_allowed_types p && forallb scalar_type (allowed_types p) &&
  is_valid p (default_value p) &&
  match read_frequency p with Some _ => negb (static p) | None => static p end.

(** The events a computation added to the trace. *)
Definition new_events (before after : state) : list event :=
  drop (length (trace before)) (trace after).

(** [params_dir st !! key]: the text of the file of [key], if any. *)
Definition file_of (st : state) (key : string) : option string :=
  files ← params_dir st; files !! key.

(** Whether [get] re-reads the file: the test of its first [if]. *)
Definition refresh_due (p : Param) (st : state) (force_update : bool) : bool :=
  (negb (static p) &&
   match read_frequency p with
   | Some r => Qle_bool r (clock st (ticks st) - last_read p)
   | None => false
   end) || force_update.

(** What [get] prints when the cached value is not valid. *)
Definition warn_invalid : list event :=
  [EvPrint "opParams WARNING: User's value type is not valid! Returning default";
   EvPrint "None"].

(** The last three lines of [get] on the cached value [v]. *)
Definition validated (p : Param) (v : pyval) (s : state) : outcome get_result * state :=
  if is_valid p v then (Ok (one_value v), s)
  else (Ok (one_value (default_value p)), set_trace (trace s ++ warn_invalid) s).

(** The state after the clock reading of the cadence test. *)
Definition after_test (p : Param) (st : state) : state :=
  if static p then st else set_ticks (S (ticks st)) st.

(** The state after a successful read of the file and the update of
    [last_read]. *)
Definition after_read (key : string) (p : Param) (st : state) : state :=
  let s1 := set_trace (trace st ++ [EvRead (param_path key)]) (after_test p st) in
  set_fork_params (dict_alter (set_last_read (clock s1 (ticks s1))) key (fork_params s1))
    (set_ticks (S (ticks s1)) s1).

(** The entry [_load_params] loads the file [key] for, if any. *)
Definition loadable (fp : list (string * Param)) (key : string) : option Param :=
  if String.prefix "." key then None else dict_get key fp.

(** The value [_load_params] caches for a file holding [text], and the
    text the file holds afterwards. *)
Definition loaded_value `{Json} (p : Param) (text : string) : pyval :=
  default (default_value p) (json_loads text).
Definition repaired_text `{Json} (p : Param) (text : string) : string :=
  match json_loads text with
  | Some _ => text
  | None => json_dumps (default_value p)
  end.

(** Events that do not concern the legacy file or the creation of the
    directory. *)
Definition param_event (e : event) : bool :=
  match e with
  | EvExists OLD_PARAMS_FILE | EvRead OLD_PARAMS_FILE | EvMakedirs => false
  | _ => true
  end.

(** The state after the cache has become [ps], the directory [files], and
    the events [evs] have happened. *)
Definition touch (ps : gmap string pyval) (files : gmap string string)
    (evs : list event) (st : state) : state :=
  set_params ps (set_params_dir (Some files) (set_trace (trace st ++ evs) st)).

(** The entry and the text [_load_params] finds for [key]. *)
Definition load_of (fp : list (string * Param)) (files : gmap string string)
    (key : string) : option (Param * string) :=
  p ← loadable fp key; text ← files !! key; Some (p, text).

(** Every entry of [fp] passes [param_ok]. *)
Definition registry_valid (fp : list (string * Param)) : Prop :=
  ∀ k p, dict_get k fp = Some p → param_ok k p = true.

(** The dict comprehension of [_get_all_params]: the cached values of
    the entries that are not hidden. *)
Definition visible (fp : list (string * Param)) (ps : gmap string pyval)
    : gmap string pyval :=
  foldl (fun acc kp =>
           match ps !! kp.1 with
           | Some v => if negb (hidden kp.2) then <[kp.1 := v]> acc else acc
           | None => acc
           end) ∅ fp.

(** The object once [__init__] has assigned [fork_params], [_to_delete]
    and [_to_reset] and [_run_init] has added its two entries. *)
Definition init_state (st : state) : state :=
  set_fork_params registry
    (set_to_reset []
       (set_to_delete ["use_lqr"; "disengage_on_gas"; "corollaTSS2_use_indi"; "prius_use_pid"]
          st)).

(** The state in which a construction that finds no parameters directory
    but a legacy file enters the [try] block of [_import_params]. *)
Definition import_state (st : state) : state :=
  set_trace (trace st ++ [EvExists PARAMS_DIR; EvMakedirs;
                          EvExists OLD_PARAMS_FILE; EvExists IMPORTED_PATH])
    (set_params_dir (Some ∅) (init_state st)).

(** The legacy mapping has no key named like the sentinel file. *)
Definition no_imported_key `{Json} (st : state) : Prop :=
  ∀ text v keys,
    old_params_file st = Some text → json_loads text = Some v →
    py_iter v = Ok keys → VStr ".imported" ∉ keys.

(** The exception [put] raises on a value of invalid type. *)
Definition InvalidValueType : exn :=
  Exception "opParams: Tried to put a value of invalid type!".

(** The exception [_check_key_exists] raises for the method [met]. *)
Definition UnknownParameter (met key : string) : exn :=
  Exception ("opParams: Tried to " +:+ met +:+
             " an unknown parameter! Key not in fork_params: " +:+ key).



(** What [_add_default_params] leaves in the cache for an entry whose
    cached value was [c]: [c] when it is valid, the default otherwise. *)
Definition settled (p : Param) (c : option pyval) : pyval :=
  match c with
  | Some v => if is_valid p v then v else default_value p
  | None => default_value p
  end.

(** Whether [_add_default_params] keeps the cached value [c]. *)
Definition kept (p : Param) (c : option pyval) : bool :=
  match c with
  | Some v => is_valid p v
  | None => false
  end.

(** The text construction leaves in the file of an entry: the text found
    when it decodes to a valid value, the JSON text of the default
    otherwise. *)
Definition settled_text `{Json} (p : Param) (file : option string) : string :=
  match file with
  | Some text => if kept p (json_loads text) then text else json_dumps (default_value p)
  | None => json_dumps (default_value p)
  end.

(** Events that only print or write a file. *)
Definition print_or_write (e : event) : bool :=
  match e with
  | EvPrint _ | EvWrite _ _ => true
  | _ => false
  end.

(** What [_delete_and_reset] does to a cached key: its cache entry and
    its file afterwards. *)
Definition swept `{Json} (st : state) (key : string) : option pyval * option string :=
  if bool_decide (key ∈ _to_delete st) then (None, None)
  else
    match (if bool_decide (key ∈ _to_reset st) then dict_get key (fork_params st) else None) with
    | Some p => (Some (default_value p), Some (json_dumps (default_value p)))
    | None => (params st !! key, file_of st key)
    end.

(** The state in which [_load_params], having found no parameters
    directory and created it, calls [_import_params]. *)
Definition fresh_dir (s : state) : state :=
  set_trace (trace s ++ [EvExists PARAMS_DIR; EvMakedirs]) (set_params_dir (Some ∅) s).

(** The directory [_load_params] lists is [listed]: the one it found, or
    the one the import left in the directory just created. *)
Definition lists `{Json} (can_import : bool) (s : state) (listed : gmap string string) : Prop :=
  match params_dir s with
  | Some files => listed = files
  | None =>
      if can_import then
        ∃ evs, _import_params (fresh_dir s) = (Ok tt, touch (params s) listed evs (fresh_dir s))
      else listed = ∅
  end.

(** A store whose cache and directory agree: every registered key is
    cached with a value valid for it, and its file decodes to that value. *)
Definition coherent `{Json} (st : state) : Prop :=
  initialized st ∧
  ∀ key p, dict_get key (fork_params st) = Some p →
    ∃ c text, params st !! key = Some c ∧ is_valid p c = true ∧
              file_of st key = Some text ∧ json_loads text = Some c.

(** ** The codec inverts itself on scalars *)

Module PyJsonFacts.
Import PyJson.
Local Open Scope list_scope.

Lemma is_digit_cases c :
  is_digit c = true →
  c ∈ ["0"; "1"; "2"; "3"; "4"; "5"; "6"; "7"; "8"; "9"]%char.
Proof.
  destruct c as [[] [] [] [] [] [] [] []]; simpl; intros Hd;
    try discriminate Hd; set_solver.
Qed.

Lemma chars_of_uint_digits d : Forall (fun c => is_digit c = true) (chars_of_uint d).
Proof. induction d; simpl; constructor; auto. Qed.

Lemma uint_of_chars_of_uint d : uint_of_chars (chars_of_uint d) = d.
Proof. induction d; simpl; congruence. Qed.

Lemma N_of_chars_of_N n : N_of_chars (chars_of_N n) = n.
Proof.
  unfold N_of_chars, chars_of_N. rewrite uint_of_chars_of_uint.
  apply DecimalN.Unsigned.of_to.
Qed.

Lemma span_digits_app l rest :
  Forall (fun c => is_digit c = true) l →
  match rest with c :: _ => is_digit c = false | [] => True end →
  span_digits (l ++ rest) = (l, rest).
Proof.
  intros Hl Hrest. induction Hl as [|c l Hc _ IH]; cbn [span_digits app].
  - destruct rest as [|c r]; [done|]. cbn [span_digits]. by rewrite Hrest.
  - by rewrite Hc, IH.
Qed.

Lemma span_digits_all l :
  Forall (fun c => is_digit c = true) l → span_digits l = (l, []).
Proof. intros Hl. rewrite <-(app_nil_r l) at 1. by apply span_digits_app. Qed.

Lemma to_uint_unorm n : Decimal.unorm (N.to_uint n) = N.to_uint n.
Proof.
  rewrite <-(DecimalN.Unsigned.of_to n) at 2.
  by rewrite DecimalN.Unsigned.to_of.
Qed.

Lemma canonical_chars_of_N n : canonical_int (chars_of_N n) = true.
Proof.
  unfold chars_of_N. pose proof (to_uint_unorm n) as Hn.
  destruct (N.to_uint n) as [|u| | | | | | | | |]; try done.
  cbn [chars_of_uint canonical_int].
  destruct u; try done; exfalso;
    rewrite DecimalFacts.unorm_D0 in Hn; unfold Decimal.unorm in Hn;
    match type of Hn with
    | match ?x with _ => _ end = _ =>
        destruct x eqn:E'; try discriminate Hn;
        injection Hn as Hn; by eapply DecimalFacts.nzhead_nonzero
    end.
Qed.

Lemma chars_of_N_digits n : Forall (fun c => is_digit c = true) (chars_of_N n).
Proof. apply chars_of_uint_digits. Qed.

Lemma chars_of_N_cons n : ∃ c l, chars_of_N n = c :: l ∧ is_digit c = true.
Proof.
  pose proof (canonical_chars_of_N n) as Hc.
  pose proof (chars_of_N_digits n) as Hd.
  destruct (chars_of_N n) as [|c l]; [done|].
  exists c, l. split; [done|]. by inversion Hd.
Qed.

Lemma N_of_chars_zeros j l : N_of_chars (replicate j "0"%char ++ l) = N_of_chars l.
Proof. induction j as [|j IH]; [done|]. exact IH. Qed.


Definition sign_chars (neg : bool) : list ascii := if neg then ["-"%char] else [].

Lemma parse_sign_digit neg c l :
  is_digit c = true → parse_sign (sign_chars neg ++ c :: l) = (neg, c :: l).
Proof.
  intros Hc. destruct neg; [done|]. cbn [sign_chars app parse_sign].
  rewrite bool_decide_eq_false_2; [done|]. by intros ->.
Qed.

Lemma parse_sign_digits neg l rest :
  Forall (fun c => is_digit c = true) l → l ≠ [] →
  parse_sign (sign_chars neg ++ l ++ rest) = (neg, l ++ rest).
Proof.
  intros Hl Hne. destruct l as [|c l]; [done|]. cbn [app].
  apply parse_sign_digit. by inversion Hl.
Qed.

Lemma chars_of_N_nonnil n : chars_of_N n ≠ [].
Proof. destruct (chars_of_N_cons n) as (c & l & -> & _). done. Qed.

Lemma parse_frac_point f rest :
  Forall (fun c => is_digit c = true) f → f ≠ [] →
  match rest with c :: _ => is_digit c = false | [] => True end →
  parse_frac ("."%char :: f ++ rest) = (f, rest).
Proof.
  intros Hf Hne Hrest. cbn [parse_frac]. rewrite bool_decide_eq_true_2 by done.
  rewrite span_digits_app by done. by destruct f.
Qed.

Lemma parse_exp_plus x :
  Forall (fun c => is_digit c = true) x → x ≠ [] →
  parse_exp ("e"%char :: "+"%char :: x) = (Some (Z.of_N (N_of_chars x)), []).
Proof.
  intros Hx Hne. cbn [parse_exp]. rewrite bool_decide_eq_true_2 by done.
  cbn [orb]. rewrite bool_decide_eq_true_2 by done.
  rewrite span_digits_all by done. by destruct x.
Qed.

Lemma parse_number_int neg n :
  parse_number (sign_chars neg ++ chars_of_N n)
  = Some (VInt (if neg then - Z.of_N n else Z.of_N n)%Z, []).
Proof.
  unfold parse_number. rewrite <-(app_nil_r (chars_of_N n)).
  rewrite parse_sign_digits; [|apply chars_of_N_digits|apply chars_of_N_nonnil].
  rewrite app_nil_r.
  rewrite (span_digits_all _ (chars_of_N_digits n)), canonical_chars_of_N.
  cbn -[N_of_chars chars_of_N]. by rewrite N_of_chars_of_N.
Qed.

Lemma parse_number_exp neg m e :
  (0 ≤ e)%Z →
  parse_number (sign_chars neg ++ chars_of_N m ++ chars "e+" ++ chars_of_N (Z.to_N e))
  = Some (VFloat (FDec neg m e), []).
Proof.
  intros He. unfold parse_number.
  rewrite parse_sign_digits; [|apply chars_of_N_digits|apply chars_of_N_nonnil].
  rewrite span_digits_app; [|apply chars_of_N_digits|done].
  rewrite canonical_chars_of_N. cbn [negb chars list_ascii_of_string app].
  cbn [parse_frac]. rewrite bool_decide_eq_false_2 by done.
  rewrite parse_exp_plus; [|apply chars_of_N_digits|apply chars_of_N_nonnil].
  rewrite app_nil_r, !N_of_chars_of_N. cbn [default length].
  do 4 f_equal. unfold id. lia.
Qed.

(** The digits of the mantissa, padded to at least [k + 1] digits. *)
Definition padded (k : nat) (m : N) : list ascii :=
  replicate (S k - length (chars_of_N m)) "0"%char ++ chars_of_N m.

Lemma padded_digits k m : Forall (fun c => is_digit c = true) (padded k m).
Proof.
  apply Forall_app. split; [|apply chars_of_N_digits].
  by apply Forall_replicate.
Qed.

Lemma padded_length k m : k < length (padded k m).
Proof. unfold padded. rewrite length_app, length_replicate. lia. Qed.

Lemma canonical_take_padded k m :
  canonical_int (take (length (padded k m) - k) (padded k m)) = true.
Proof.
  unfold padded. destruct (decide (length (chars_of_N m) ≤ k)%nat) as [Hle|Hgt].
  - replace (S k - length (chars_of_N m)) with (S (k - length (chars_of_N m))) by lia.
    rewrite length_app, length_replicate.
    replace (S (k - length (chars_of_N m)) + length (chars_of_N m) - k) with 1 by lia.
    done.
  - replace (S k - length (chars_of_N m)) with 0 by lia. cbn [replicate app].
    pose proof (canonical_chars_of_N m) as Hc.
    destruct (chars_of_N m) as [|c l]; [done|]. cbn [length] in *.
    replace (S (length l) - k) with (S (length l - k)) by lia.
    cbn [take canonical_int] in *.
    apply orb_true_iff in Hc as [Hc| Hl]; [by rewrite Hc|].
    apply bool_decide_eq_true in Hl as ->. rewrite take_nil. apply orb_true_r.
Qed.

Lemma parse_number_fixed neg m e :
  (e < 0)%Z →
  let k := Z.to_nat (- e) in
  let d := padded k m in
  parse_number (sign_chars neg ++ take (length d - k) d ++ "."%char :: drop (length d - k) d)
  = Some (VFloat (FDec neg m e), []).
Proof.
  intros He k d.
  pose proof (padded_length k m) as Hlen. fold d in Hlen.
  pose proof (canonical_take_padded k m) as Hcan. fold d in Hcan.
  pose proof (padded_digits k m) as Hdig. fold d in Hdig.
  assert (k ≠ 0) as Hk by lia.
  set (ip := take (length d - k) d) in *. set (fr := drop (length d - k) d).
  assert (length fr = k) as Hfr by (unfold fr; rewrite length_drop; lia).
  assert (Forall (fun c => is_digit c = true) ip) as Hip by by apply Forall_take.
  assert (Forall (fun c => is_digit c = true) fr) as Hfd by by apply Forall_drop.
  assert (fr ≠ []) as Hne by (intros E; rewrite E in Hfr; simpl in Hfr; lia).
  assert (ip ≠ []) as Hipne by (by intros E; rewrite E in Hcan).
  unfold parse_number. rewrite parse_sign_digits by done.
  rewrite span_digits_app by done. rewrite Hcan. cbn [negb].
  rewrite <-(app_nil_r fr) at 1. rewrite parse_frac_point by done.
  cbn [parse_exp]. destruct fr as [|c' fr'] eqn:Efr; [done|]. rewrite <-Efr in *.
  assert (ip ++ fr = d) as -> by apply take_drop.
  unfold d, padded. rewrite N_of_chars_zeros, N_of_chars_of_N, Hfr.
  cbn [default]. do 4 f_equal. unfold k. lia.
Qed.

Lemma parse_str_body_escape c s acc :
  parse_str_body (escape_char c ++ s) acc = parse_str_body s (c :: acc).
Proof. destruct c as [[] [] [] [] [] [] [] []]; reflexivity. Qed.

Lemma parse_str_body_escaped l rest acc :
  parse_str_body (flat_map escape_char l ++ dquote :: rest) acc
  = Some (rev acc ++ l, rest).
Proof.
  revert acc. induction l as [|c l IH]; intros acc.
  - cbn [flat_map app parse_str_body]. rewrite bool_decide_eq_true_2 by done.
    by rewrite app_nil_r.
  - cbn [flat_map]. rewrite <-app_assoc, parse_str_body_escape, IH.
    cbn [rev]. by rewrite <-app_assoc.
Qed.

Lemma parse_str_dumps s : parse_str (dumps_str s) = Some (s, []).
Proof.
  unfold parse_str, dumps_str. rewrite bool_decide_eq_true_2 by done.
  rewrite parse_str_body_escaped. cbn [fmap option_fmap option_map rev app prod_map fst snd].
  f_equal. f_equal. apply string_of_list_ascii_of_string.
Qed.

Lemma parse_value_str n s : parse_value (S n) (dumps_str s) = Some (VStr s, []).
Proof.
  pose proof (parse_str_dumps s) as Hs. unfold dumps_str in *.
  cbn -[parse_str]. by rewrite Hs.
Qed.

Lemma parse_value_digit n c l :
  is_digit c = true → parse_value (S n) (c :: l) = parse_number (c :: l).
Proof.
  intros Hc. apply is_digit_cases in Hc.
  repeat (apply elem_of_cons in Hc as [->|Hc]; [reflexivity|]).
  by apply elem_of_nil in Hc.
Qed.

Lemma parse_value_minus_digit n c l :
  is_digit c = true →
  parse_value (S n) ("-"%char :: c :: l) = parse_number ("-"%char :: c :: l).
Proof.
  intros Hc. apply is_digit_cases in Hc.
  repeat (apply elem_of_cons in Hc as [->|Hc]; [reflexivity|]).
  by apply elem_of_nil in Hc.
Qed.

Lemma parse_value_signed n neg l rest :
  Forall (fun c => is_digit c = true) l → l ≠ [] →
  parse_value (S n) (sign_chars neg ++ l ++ rest)
  = parse_number (sign_chars neg ++ l ++ rest).
Proof.
  intros Hl Hne. destruct l as [|c l]; [done|]. inversion_clear Hl.
  destruct neg; cbn [sign_chars app].
  - by apply parse_value_minus_digit.
  - by apply parse_value_digit.
Qed.

Lemma parse_value_scalar n v :
  scalar v = true → parse_value (S n) (dumps_chars v) = Some (v, []).
Proof.
  destruct v as [|[]|z|f|s|l|d]; try done; intros _.
  - cbn [dumps_chars]. unfold dumps_int. fold (sign_chars (z <? 0)%Z).
    rewrite <-(app_nil_r (chars_of_N _)).
    rewrite parse_value_signed; [|apply chars_of_N_digits|apply chars_of_N_nonnil].
    rewrite app_nil_r, parse_number_int. do 3 f_equal.
    destruct (Z.ltb_spec z 0); lia.
  - destruct f as [|[]|neg m e]; try done.
    cbn [dumps_chars dumps_float]. fold (sign_chars neg).
    destruct (Z.ltb_spec e 0) as [He|He].
    + fold (padded (Z.to_nat (- e)) m).
      pose proof (canonical_take_padded (Z.to_nat (-e)) m) as Hcan.
      rewrite (parse_value_signed _ _ _ ("."%char :: _)).
      * by apply parse_number_fixed.
      * apply Forall_take, padded_digits.
      * intros E. by rewrite E in Hcan.
    + rewrite parse_value_signed; [|apply chars_of_N_digits|apply chars_of_N_nonnil].
      by apply parse_number_exp.
  - apply parse_value_str.
Qed.

Lemma dumps_chars_no_ws v :
  scalar v = true → skip_ws (dumps_chars v) = dumps_chars v.
Proof.
  destruct v as [|[]|z|f|s|l|d]; try done; intros _.
  - cbn [dumps_chars]. unfold dumps_int.
    destruct (chars_of_N_cons (Z.abs_N z)) as (c & l & -> & Hc).
    destruct (z <? 0)%Z; [done|]. cbn [app skip_ws].
    apply is_digit_cases in Hc.
    repeat (apply elem_of_cons in Hc as [->|Hc]; [reflexivity|]).
    by apply elem_of_nil in Hc.
  - destruct f as [|[]|neg m e]; try done.
    cbn [dumps_chars dumps_float]. destruct neg; [done|]. cbn [app].
    assert (∀ l r, Forall (fun c => is_digit c = true) l → l ≠ [] →
                   skip_ws (l ++ r) = l ++ r) as Hskip.
    { intros [|c l] r Hl Hne; [done|]. inversion_clear Hl as [|?? Hc _].
      cbn [app skip_ws]. apply is_digit_cases in Hc.
      repeat (apply elem_of_cons in Hc as [->|Hc]; [reflexivity|]).
      by apply elem_of_nil in Hc. }
    destruct (e <? 0)%Z.
    + fold (padded (Z.to_nat (- e)) m).
      pose proof (canonical_take_padded (Z.to_nat (-e)) m) as Hcan.
      apply Hskip; [apply Forall_take, padded_digits|].
      intros E. by rewrite E in Hcan.
    + apply Hskip; [apply chars_of_N_digits|apply chars_of_N_nonnil].
Qed.

Lemma loads_dumps v : scalar v = true → loads (dumps v) = Some v.
Proof.
  intros Hv. unfold loads, dumps, chars.
  rewrite list_ascii_of_string_of_list_ascii, dumps_chars_no_ws by done.
  by rewrite parse_value_scalar.
Qed.
End PyJsonFacts.

#[global] Instance py_json : Json := {|
  json_dumps := PyJson.dumps;
  json_loads := PyJson.loads;
  json_loads_dumps := PyJsonFacts.loads_dumps
|}.

(** ** Concrete runs *)

(** A clock that advances one second per reading. *)
Definition uptime (n : nat) : Q := inject_Z (Z.of_nat n).

(** A process about to construct the store, on a device whose parameters
    directory and legacy file are as given. *)
Definition boot (dir : option (gmap string string)) (old : option string) : state :=
  mkState [] ∅ [] [] dir old uptime 0 [].

(** The store after its first construction on a fresh device. *)
Definition installed : state := (__init__ (boot None None)).2.

(** An edit of the parameters directory from outside the process. *)
Definition edit_file (key text : string) (st : state) : state :=
  set_params_dir (insert key text <$> params_dir st) st.
Definition remove_file (key : string) (st : state) : state :=
  set_params_dir (delete key <$> params_dir st) st.

(** The registry entry of a key. *)
Definition registry_entry (key : string) : Param :=
  default (mkParam VNone [] None false false false false false false None 0)
    (dict_get key registry).

(** The parameters directory disappears. *)
Definition remove_dir (st : state) : state := set_params_dir None st.

(** ** Facts about the store *)

Lemma registry_ok : forallb (fun kp => param_ok kp.1 kp.2) registry = true.
Proof. vm_compute. reflexivity. Qed.

Lemma registry_keys :
  registry.*1 =
  ["global_df_mod"; "min_TR"; "alca_no_nudge_speed"; "steer_ratio"; "upload_onroad";
   "update_behavior"; "dynamic_gas"; "hide_auto_df_alerts"; "df_button_alerts";
   "disable_charging"; "hide_model_long"; "use_steering_model"; "rav4TSS2_use_indi";
   "standstill_hack"; "toyota_distance_btn"; "dynamic_follow"; "lane_speed_alerts";
   "username"; "op_edit_live_mode"].
Proof. vm_compute. reflexivity. Qed.

Ltac munfold :=
  unfold mbind, M_bind, mret, M_ret, gets, modify, log, raise, lift, try_except;
  cbn beta iota.

Section store_facts.
Context `{Json}.

Lemma bind_run {A B} (m : M A) (f : A → M B) st :
  (m ≫= f) st = match m st with
                | (Ok a, s') => f a s'
                | (Raise e, s') => (Raise e, s')
                end.
Proof. reflexivity. Qed.

Lemma os_path_exists_run p st :
  os_path_exists p st =
  (Ok match p with
      | PARAMS_DIR => bool_decide (is_Some (params_dir st))
      | param_path key =>
          match params_dir st with
          | Some files => bool_decide (is_Some (files !! key))
          | None => false
          end
      | OLD_PARAMS_FILE => bool_decide (is_Some (old_params_file st))
      end,
   set_trace (trace st ++ [EvExists p]) st).
Proof. by destruct p. Qed.

Lemma mret_run {A} (a : A) st : (mret a : M A) st = (Ok a, st).
Proof. reflexivity. Qed.

Lemma lift_run {A} (o : outcome A) st : lift o st = (o, st).
Proof. reflexivity. Qed.

Lemma open_read_old_run st :
  open_read OLD_PARAMS_FILE st =
  match old_params_file st with
  | Some text => (Ok text, set_trace (trace st ++ [EvRead OLD_PARAMS_FILE]) st)
  | None => (Raise (FileNotFoundError ""), st)
  end.
Proof. unfold open_read. munfold. by destruct (old_params_file st). Qed.

Lemma _read_param_run key st :
  _read_param key st =
  match file_of st key with
  | Some text =>
      (Ok match json_loads text with
          | Some v => (v, true)
          | None => (VNone, false)
          end,
       set_trace (trace st ++ [EvRead (param_path key)]) st)
  | None => (Raise (FileNotFoundError key), st)
  end.
Proof.
  unfold _read_param, open_read, file_of, loads. munfold.
  destruct (option_bind _ _ _ _) as [text|]; cbn; [|done].
  destruct (json_loads text); done.
Qed.

Lemma _write_param_run key v st files :
  params_dir st = Some files → valid_name key = true →
  _write_param key v st =
  (Ok tt,
   set_params_dir (Some (<[key := json_dumps v]> files))
     (set_trace (trace st ++ [EvWrite (param_path key) (json_dumps v)]) st)).
Proof.
  intros Hdir Hname. unfold _write_param, atomic_write. munfold.
  rewrite Hdir, Hname. reflexivity.
Qed.

Lemma _check_key_exists_run key met st p :
  dict_get key (fork_params st) = Some p → _check_key_exists key met st = (Ok tt, st).
Proof. intros Hp. unfold _check_key_exists. munfold. by rewrite Hp. Qed.

Lemma fork_params_getitem_run key st p :
  dict_get key (fork_params st) = Some p → fork_params_getitem key st = (Ok p, st).
Proof. intros Hp. unfold fork_params_getitem. munfold. by rewrite Hp. Qed.

Lemma dict_get_map {A B} (f : A → B) key (d : list (string * A)) :
  dict_get key (map (fun kp => (kp.1, f kp.2)) d) = f <$> dict_get key d.
Proof.
  induction d as [|[k a] d IH]; [done|]. cbn [map dict_get fst snd].
  by destruct (decide (k = key)).
Qed.

Lemma dict_get_Forall {A} (P : string → A → bool) key (d : list (string * A)) a :
  forallb (fun kp => P kp.1 kp.2) d = true → dict_get key d = Some a → P key a = true.
Proof.
  induction d as [|[k b] d IH]; [done|]. cbn [forallb dict_get fst snd].
  intros [Hb Hd]%andb_true_iff. destruct (decide (k = key)) as [->|]; [|by auto].
  by intros [= ->].
Qed.

Lemma initialized_param_ok st key p :
  initialized st → dict_get key (fork_params st) = Some p → param_ok key p = true.
Proof.
  intros Hinit Hp.
  assert (dict_get key registry = Some (set_last_read (-1) p)) as Hr.
  { rewrite <-Hinit, dict_get_map, Hp. done. }
  apply (dict_get_Forall param_ok _ _ _ registry_ok) in Hr.
  by destruct p.
Qed.

Lemma valid_scalar p v :
  has_allowed_types p = true → forallb scalar_type (allowed_types p) = true →
  is_valid p v = true → scalar v = true.
Proof.
  unfold is_valid. intros -> Hall Hv. cbn in Hv. apply bool_decide_eq_true in Hv.
  rewrite forallb_forall in Hall. apply list_elem_of_In, Hall in Hv.
  by destruct v.
Qed.

Lemma get_run key force_update st p :
  dict_get key (fork_params st) = Some p → param_ok key p = true →
  get (Some key) force_update st =
  if refresh_due p st force_update then
    match params_dir st with
    | None => (Raise (FileNotFoundError key), after_test p st)
    | Some files =>
      match files !! key with
      | None => (Raise (FileNotFoundError key), after_test p st)
      | Some text =>
        let s2 := after_read key p st in
        match json_loads text with
        | Some v => validated p v (set_params (<[key := v]> (params s2)) s2)
        | None =>
            let d := default_value p in
            let s3 := set_params_dir (Some (<[key := json_dumps d]> files))
                        (set_trace (trace s2 ++ [EvWrite (param_path key) (json_dumps d)]) s2) in
            validated p d (set_params (<[key := d]> (params s3)) s3)
        end
      end
    end
  else
    match params st !! key with
    | Some v => validated p v (after_test p st)
    | None => (Raise (KeyError key), after_test p st)
    end.
Proof.
  intros Hp Hok. unfold param_ok in Hok.
  apply andb_true_iff in Hok as [Hok Hrate].
  apply andb_true_iff in Hok as [Hok Hdef].
  apply andb_true_iff in Hok as [Hok _].
  apply andb_true_iff in Hok as [Hok _].
  apply andb_true_iff in Hok as [Hname _].
  unfold get, _check_key_exists, fork_params_getitem, _read_param, _write_param,
    atomic_write, open_read, sec_since_boot, params_setitem, params_getitem,
    warning, print, loads, ge_rate.
  unfold refresh_due, after_read, after_test, validated.
  munfold. rewrite Hp. cbn. rewrite ?Hp. cbn.
  destruct (static p) eqn:Hstatic, (read_frequency p) as [r|] eqn:Hr;
    try discriminate Hrate; cbn; rewrite ?Hp; cbn;
    [|destruct (Qle_bool r _); cbn];
    destruct force_update; cbn;
    destruct (params st !! key) as [c|] eqn:Hc;
    destruct (params_dir st) as [files|] eqn:Hdir; cbn; try done;
    try (destruct (files !! key) as [text|] eqn:Hfile; cbn; try done;
         destruct (json_loads text) as [v|] eqn:Hloads; cbn; rewrite ?Hdir; cbn;
         rewrite ?Hname; cbn; rewrite ?lookup_insert_eq; cbn; rewrite ?Hdef);
    try done;
    try (destruct (is_valid p c); [done|]; unfold warn_invalid; cbn;
         by rewrite <-app_assoc);
    try (destruct (is_valid p v); [done|]; unfold warn_invalid; cbn;
         by rewrite <-app_assoc).
Qed.

Lemma put_run key v st p :
  dict_get key (fork_params st) = Some p →
  put key v st =
  if is_valid p v then
    let s1 := set_params (<[key := v]> (params st)) st in
    match params_dir st with
    | Some files =>
        if valid_name key then
          (Ok tt, set_params_dir (Some (<[key := json_dumps v]> files))
                    (set_trace (trace s1 ++ [EvWrite (param_path key) (json_dumps v)]) s1))
        else (Raise (OSError key), s1)
    | None => (Raise (FileNotFoundError key), s1)
    end
  else (Raise (Exception "opParams: Tried to put a value of invalid type!"), st).
Proof.
  intros Hp.
  unfold put, _check_key_exists, fork_params_getitem, _write_param, atomic_write,
    params_setitem.
  munfold. rewrite Hp. cbn. rewrite Hp. cbn.
  destruct (is_valid p v); cbn; [|done].
  destruct (params_dir st); cbn; [|done]. by destruct (valid_name key).
Qed.

Lemma new_events_app st st' evs :
  trace st' = trace st ++ evs → new_events st st' = evs.
Proof. intros Ht. unfold new_events. by rewrite Ht, drop_app_length. Qed.

Lemma param_ok_inv key p :
  param_ok key p = true →
  valid_name key = true ∧ String.prefix "." key = false ∧
  has_allowed_types p = true ∧ forallb scalar_type (allowed_types p) = true ∧
  is_valid p (default_value p) = true ∧
  (static p = true ∨ ∃ r, read_frequency p = Some r ∧ static p = false).
Proof.
  unfold param_ok. intros Hok.
  do 5 (apply andb_true_iff in Hok as [Hok ?]).
  repeat split; try done.
  - by apply negb_true_iff.
  - destruct (read_frequency p), (static p); naive_solver.
Qed.

Lemma default_scalar key p : param_ok key p = true → scalar (default_value p) = true.
Proof.
  intros (_ & _ & ? & ? & ? & _)%param_ok_inv. by eapply valid_scalar.
Qed.


Lemma touch_touch ps1 f1 e1 ps2 f2 e2 st :
  touch ps2 f2 e2 (touch ps1 f1 e1 st) = touch ps2 f2 (e1 ++ e2) st.
Proof. unfold touch. cbn. by rewrite app_assoc. Qed.

Lemma touch_id st files :
  params_dir st = Some files → touch (params st) files [] st = st.
Proof. intros Hdir. destruct st. cbn in *. unfold touch. cbn. by rewrite app_nil_r, Hdir. Qed.

Lemma initialized_valid st : initialized st → registry_valid (fork_params st).
Proof. intros Hinit k p. by apply initialized_param_ok. Qed.

Lemma _load_params_step_run acc key st files text :
  params_dir st = Some files → files !! key = Some text →
  registry_valid (fork_params st) →
  _load_params_step acc key st =
  match loadable (fork_params st) key with
  | None => (Ok acc, st)
  | Some p =>
      (Ok (<[key := loaded_value p text]> acc),
       touch (params st) (<[key := repaired_text p text]> files)
         (EvRead (param_path key) ::
          match json_loads text with
          | Some _ => []
          | None => [EvWrite (param_path key) (json_dumps (default_value p))]
          end) st)
  end.
Proof.
  intros Hdir Hfile Hreg. unfold _load_params_step, loadable.
  rewrite bind_run. unfold gets at 1. cbn beta iota.
  destruct (String.prefix "." key); [done|]. cbn [orb].
  destruct (dict_get key (fork_params st)) as [p|] eqn:Hp; cbn; [|done].
  rewrite bind_run, _read_param_run. unfold file_of. rewrite Hdir. cbn. rewrite Hfile.
  pose proof (Hreg _ _ Hp) as (Hname & _)%param_ok_inv.
  unfold loaded_value, repaired_text, touch.
  destruct (json_loads text) as [v|]; cbn.
  - rewrite (insert_id files) by done. munfold. destruct st; cbn in *. by rewrite Hdir.
  - munfold. unfold fork_params_getitem, _write_param, atomic_write. munfold. cbn.
    rewrite Hp. cbn. rewrite Hdir, Hname. cbn. rewrite <-app_assoc.
    destruct st; cbn in *. done.
Qed.

Lemma load_of_insert fp files key text k :
  k ≠ key → load_of fp (<[key := text]> files) k = load_of fp files k.
Proof. intros Hne. unfold load_of. by rewrite lookup_insert_ne. Qed.

Lemma _load_params_loop_run ks : ∀ acc st files,
  params_dir st = Some files → NoDup ks → (∀ k, k ∈ ks → is_Some (files !! k)) →
  registry_valid (fork_params st) →
  ∃ acc' files' evs,
    _load_params_loop acc ks st = (Ok acc', touch (params st) files' evs st) ∧
    (∀ k, acc' !! k =
          match (if bool_decide (k ∈ ks) then load_of (fork_params st) files k else None) with
          | Some (p, text) => Some (loaded_value p text)
          | None => acc !! k
          end) ∧
    (∀ k, files' !! k =
          match (if bool_decide (k ∈ ks) then load_of (fork_params st) files k else None) with
          | Some (p, text) => Some (repaired_text p text)
          | None => files !! k
          end) ∧
    Forall (fun e => param_event e = true) evs ∧
    (∀ k, k ∈ ks → is_Some (loadable (fork_params st) k) → EvRead (param_path k) ∈ evs).
Proof.
  induction ks as [|key ks IH]; intros acc st files Hdir Hnd Hin Hreg.
  - exists acc, files, []. cbn [_load_params_loop]. rewrite touch_id by done.
    repeat split; try done. intros k []%elem_of_nil.
  - apply NoDup_cons in Hnd as [Hkey Hnd].
    destruct (Hin key) as [text Htext]; [set_solver|].
    cbn [_load_params_loop]. rewrite bind_run.
    rewrite (_load_params_step_run _ _ _ files text) by done.
    destruct (loadable (fork_params st) key) as [p|] eqn:Hload.
    + set (files1 := <[key := repaired_text p text]> files).
      edestruct (IH (<[key := loaded_value p text]> acc)
                   (touch (params st) files1
                      (EvRead (param_path key) ::
                       match json_loads text with
                       | Some _ => []
                       | None => [EvWrite (param_path key) (json_dumps (default_value p))]
                       end) st) files1)
        as (acc' & files' & evs & Hrun & Hacc & Hfiles & Hevs & Hreads);
        [done|done| |done|].
      { intros k Hk. unfold files1. destruct (decide (k = key)) as [->|];
          [rewrite lookup_insert_eq; eauto|rewrite lookup_insert_ne by done; set_solver]. }
      rewrite Hrun, touch_touch. eexists acc', files', _. split; [done|].
      cbn [touch set_params set_params_dir set_trace fork_params] in *.
      repeat split.
      * intros k. rewrite Hacc. destruct (decide (k = key)) as [->|Hne].
        -- rewrite (bool_decide_eq_false_2 _ Hkey), lookup_insert_eq.
           rewrite bool_decide_eq_true_2 by set_solver.
           unfold load_of. rewrite Hload. cbn. by rewrite Htext.
        -- unfold files1. rewrite load_of_insert, lookup_insert_ne by done.
           destruct (decide (k ∈ ks)) as [Hk|Hk].
           ++ by rewrite !bool_decide_eq_true_2 by (by rewrite ?elem_of_cons; auto).
           ++ by rewrite !bool_decide_eq_false_2 by (by rewrite ?not_elem_of_cons).
      * intros k. rewrite Hfiles. destruct (decide (k = key)) as [->|Hne].
        -- rewrite (bool_decide_eq_false_2 _ Hkey). unfold files1.
           rewrite lookup_insert_eq.
           rewrite bool_decide_eq_true_2 by set_solver.
           unfold load_of. rewrite Hload. cbn. by rewrite Htext.
        -- unfold files1. rewrite load_of_insert, lookup_insert_ne by done.
           destruct (decide (k ∈ ks)) as [Hk|Hk].
           ++ by rewrite !bool_decide_eq_true_2 by (by rewrite ?elem_of_cons; auto).
           ++ by rewrite !bool_decide_eq_false_2 by (by rewrite ?not_elem_of_cons).
      * constructor; [done|]. apply Forall_app. split; [|done].
        destruct (json_loads text); repeat constructor.
      * intros k [->|Hk]%elem_of_cons Hl; [set_solver|].
        apply elem_of_cons. right. apply elem_of_app. right. by apply Hreads.
    + destruct (IH acc st files) as (acc' & files' & evs & Hrun & Hacc & Hfiles & Hevs & Hreads);
        [done|done|set_solver|done|].
      rewrite Hrun. exists acc', files', evs. split; [done|].
      repeat split; [| |done|].
      * intros k. rewrite Hacc. destruct (decide (k = key)) as [->|Hne].
        -- rewrite (bool_decide_eq_false_2 _ Hkey).
           rewrite bool_decide_eq_true_2 by set_solver.
           unfold load_of. by rewrite Hload.
        -- destruct (decide (k ∈ ks)) as [Hk|Hk].
           ++ by rewrite !bool_decide_eq_true_2 by (by rewrite ?elem_of_cons; auto).
           ++ by rewrite !bool_decide_eq_false_2 by (by rewrite ?not_elem_of_cons).
      * intros k. rewrite Hfiles. destruct (decide (k = key)) as [->|Hne].
        -- rewrite (bool_decide_eq_false_2 _ Hkey).
           rewrite bool_decide_eq_true_2 by set_solver.
           unfold load_of. by rewrite Hload.
        -- destruct (decide (k ∈ ks)) as [Hk|Hk].
           ++ by rewrite !bool_decide_eq_true_2 by (by rewrite ?elem_of_cons; auto).
           ++ by rewrite !bool_decide_eq_false_2 by (by rewrite ?not_elem_of_cons).
      * intros k [->|Hk]%elem_of_cons Hl; [|by apply Hreads].
        rewrite Hload in Hl. by destruct Hl.
Qed.

(** Loops whose body only touches the cache, the directory and the trace:
    an invariant [I] on these three is carried through. *)
Lemma for_each_touch {A} (I : gmap string pyval → gmap string string → list event → Prop)
    (l : list A) (body : A → M unit) st ps0 files0 evs0 :
  I ps0 files0 evs0 →
  (∀ x ps files evs, x ∈ l → I ps files evs →
     ∃ r ps' files' evs',
       body x (touch ps files evs st) = (r, touch ps' files' evs' st) ∧
       I ps' files' evs') →
  ∃ r ps' files' evs',
    for_each l body (touch ps0 files0 evs0 st) = (r, touch ps' files' evs' st) ∧
    I ps' files' evs'.
Proof.
  revert ps0 files0 evs0.
  induction l as [|x l IH]; intros ps0 files0 evs0 HI Hbody.
  - by exists (Ok tt), ps0, files0, evs0.
  - cbn [for_each]. rewrite bind_run.
    destruct (Hbody x ps0 files0 evs0) as (r & ps1 & files1 & evs1 & -> & HI1);
      [set_solver|done|].
    destruct r as [[]|e]; [|by exists (Raise e), ps1, files1, evs1].
    apply IH; [done|]. intros y ps files evs Hy. apply Hbody. set_solver.
Qed.

Lemma for_each_touch_ok {A} (I : gmap string pyval → gmap string string → list event → Prop)
    (l : list A) (body : A → M unit) st ps0 files0 evs0 :
  I ps0 files0 evs0 →
  (∀ x ps files evs, x ∈ l → I ps files evs →
     ∃ ps' files' evs',
       body x (touch ps files evs st) = (Ok tt, touch ps' files' evs' st) ∧
       I ps' files' evs') →
  ∃ ps' files' evs',
    for_each l body (touch ps0 files0 evs0 st) = (Ok tt, touch ps' files' evs' st) ∧
    I ps' files' evs'.
Proof.
  revert ps0 files0 evs0.
  induction l as [|x l IH]; intros ps0 files0 evs0 HI Hbody.
  - by exists ps0, files0, evs0.
  - cbn [for_each]. rewrite bind_run.
    destruct (Hbody x ps0 files0 evs0) as (ps1 & files1 & evs1 & -> & HI1);
      [set_solver|done|].
    apply IH; [done|]. intros y ps files evs Hy. apply Hbody. set_solver.
Qed.

Lemma touch_self st files :
  params_dir st = Some files → st = touch (params st) files [] st.
Proof.
  intros Hdir. destruct st. cbn in *. unfold touch. cbn. by rewrite app_nil_r, Hdir.
Qed.

Lemma _write_param_touch key v st ps files evs :
  valid_name key = true →
  _write_param key v (touch ps files evs st) =
  (Ok tt, touch ps (<[key := json_dumps v]> files)
            (evs ++ [EvWrite (param_path key) (json_dumps v)]) st).
Proof.
  intros Hname. erewrite _write_param_run; [|done|done].
  unfold touch. cbn. by rewrite <-app_assoc.
Qed.

Lemma _write_param_touch_raw key text st ps files evs :
  valid_name key = true →
  atomic_write key text (touch ps files evs st) =
  (Ok tt, touch ps (<[key := text]> files) (evs ++ [EvWrite (param_path key) text]) st).
Proof.
  intros Hname. unfold atomic_write. munfold. cbn. rewrite Hname.
  unfold touch. cbn. by rewrite <-app_assoc.
Qed.

Lemma _write_param_touch_any key v st ps files evs :
  ∃ r files' evs',
    _write_param key v (touch ps files evs st) = (r, touch ps files' (evs ++ evs') st) ∧
    (key ≠ ".imported" → files' !! ".imported" = files !! ".imported").
Proof.
  destruct (valid_name key) eqn:Hname.
  - rewrite _write_param_touch by done. eexists _, _, _. split; [done|].
    intros Hne. by rewrite lookup_insert_ne.
  - exists (Raise (OSError key)), files, []. split; [|done].
    unfold _write_param, atomic_write. munfold. cbn. rewrite Hname.
    by rewrite app_nil_r.
Qed.

(** The loop of [_load_params] over the listing of an existing directory. *)
Lemma _load_params_listing st files :
  params_dir st = Some files → registry_valid (fork_params st) →
  ∃ acc files' evs,
    (keys ← os_listdir; _load_params_loop ∅ keys) st
    = (Ok acc, touch (params st) files' (EvListdir :: evs) st) ∧
    (∀ k, acc !! k =
          (fun pt => loaded_value pt.1 pt.2) <$> load_of (fork_params st) files k) ∧
    (∀ k, files' !! k =
          match load_of (fork_params st) files k with
          | Some (p, text) => Some (repaired_text p text)
          | None => files !! k
          end) ∧
    Forall (fun e => param_event e = true) evs ∧
    (∀ k, is_Some (load_of (fork_params st) files k) → EvRead (param_path k) ∈ evs).
Proof.
  intros Hdir Hreg. rewrite bind_run. unfold os_listdir. munfold. rewrite Hdir. cbn.
  set (s1 := set_trace _ st).
  destruct (_load_params_loop_run (map_to_list files).*1 ∅ s1 files)
    as (acc & files' & evs & Hrun & Hacc & Hfiles & Hevs & Hreads); try done.
  { apply NoDup_fst_map_to_list. }
  { intros k [[k' text] [-> Hk]]%list_elem_of_fmap.
    apply elem_of_map_to_list in Hk. eauto. }
  assert (∀ k, is_Some (load_of (fork_params st) files k) → k ∈ (map_to_list files).*1)
    as Hlisted.
  { intros k [[p text] Hl]. unfold load_of in Hl.
    destruct (loadable _ k); [|done]. cbn in Hl.
    destruct (files !! k) as [text'|] eqn:Hk; [|done].
    apply list_elem_of_fmap. exists (k, text'). split; [done|].
    by apply elem_of_map_to_list. }
  rewrite Hrun. exists acc, files', evs. split.
  { unfold touch, s1. cbn. by rewrite <-app_assoc. }
  cbn [fork_params s1 set_trace] in *. repeat split; [| |done|].
  - intros k. rewrite Hacc, lookup_empty.
    destruct (load_of (fork_params st) files k) as [[p text]|] eqn:Hl.
    + by rewrite bool_decide_eq_true_2 by (apply Hlisted; eauto).
    + by destruct (bool_decide _).
  - intros k. rewrite Hfiles.
    destruct (load_of (fork_params st) files k) as [[p text]|] eqn:Hl.
    + by rewrite bool_decide_eq_true_2 by (apply Hlisted; eauto).
    + by destruct (bool_decide _).
  - intros k Hl. apply Hreads; [by apply Hlisted|].
    destruct Hl as [[p text] Hl]. unfold load_of in Hl.
    by destruct (loadable _ k).
Qed.

Lemma load_of_empty fp k : load_of fp ∅ k = None.
Proof. unfold load_of. destruct (loadable fp k); [|done]. cbn. by rewrite lookup_empty. Qed.

(** [_load_params()] without import: the cache it returns holds exactly the
    loadable files of the directory. *)
Lemma _load_params_run st :
  registry_valid (fork_params st) →
  let files := default ∅ (params_dir st) in
  ∃ acc files' evs,
    _load_params false st = (Ok acc, touch (params st) files' evs st) ∧
    (∀ k, acc !! k =
          (fun pt => loaded_value pt.1 pt.2) <$> load_of (fork_params st) files k) ∧
    (∀ k, files' !! k =
          match load_of (fork_params st) files k with
          | Some (p, text) => Some (repaired_text p text)
          | None => files !! k
          end) ∧
    (∀ k, is_Some (load_of (fork_params st) files k) → EvRead (param_path k) ∈ evs).
Proof.
  intros Hreg files. unfold _load_params.
  rewrite bind_run, os_path_exists_run. cbn [params_dir set_trace].
  set (s1 := set_trace _ st).
  destruct (params_dir st) as [files0|] eqn:Hdir; cbn [default] in files.
  - rewrite bool_decide_eq_true_2 by eauto. rewrite bind_run. cbn.
    destruct (_load_params_listing s1 files0)
      as (acc & files' & evs & Hrun & Hacc & Hfiles & Hevs & Hreads); try done.
    rewrite Hrun. eexists acc, files', _. split.
    { unfold touch, s1. cbn. by rewrite <-app_assoc. }
    repeat split; try done.
    intros k Hk. cbn. repeat (apply elem_of_cons; right). by apply Hreads.
  - rewrite bool_decide_eq_false_2 by (by intros []). rewrite bind_run.
    rewrite bind_run. unfold os_makedirs. rewrite bind_run. cbn.
    set (s2 := set_params_dir _ _).
    destruct (_load_params_listing s2 ∅)
      as (acc & files' & evs & Hrun & Hacc & Hfiles & Hevs & Hreads); try done.
    rewrite Hrun. eexists acc, files', _. split.
    { unfold touch, s2, s1. cbn. by rewrite <-!app_assoc. }
    repeat split; try done.
    intros k Hk. subst files. by rewrite load_of_empty in Hk; destruct Hk.
Qed.

Lemma visible_lookup_gen (fp : list (string * Param)) (ps acc : gmap string pyval) k :
  NoDup fp.*1 →
  foldl (fun acc kp =>
           match ps !! kp.1 with
           | Some v => if negb (hidden kp.2) then <[kp.1 := v]> acc else acc
           | None => acc
           end) acc fp !! k
  = match dict_get k fp with
    | Some p => if hidden p then acc !! k else
                  match ps !! k with Some v => Some v | None => acc !! k end
    | None => acc !! k
    end.
Proof.
  revert acc. induction fp as [|[k' p] fp IH]; intros acc Hnd; [done|].
  apply NoDup_cons in Hnd as [Hk' Hnd]. cbn [foldl dict_get fst snd].
  rewrite IH by done. destruct (decide (k' = k)) as [->|Hne].
  - assert (dict_get k fp = None) as ->.
    { clear -Hk'. induction fp as [|[k2 p2] fp IH]; [done|]. cbn in *.
      apply not_elem_of_cons in Hk' as [Hk2 Hk'].
      destruct (decide (k2 = k)) as [->|]; [done|]. by apply IH. }
    destruct (ps !! k) as [v|]; [|by destruct (hidden p)].
    destruct (hidden p); cbn; [done|]. by rewrite lookup_insert_eq.
  - destruct (ps !! k') as [v|]; [|done].
    destruct (hidden p); cbn; [done|]. by rewrite !lookup_insert_ne.
Qed.

Lemma visible_lookup (fp : list (string * Param)) (ps : gmap string pyval) k :
  NoDup fp.*1 →
  visible fp ps !! k
  = match dict_get k fp with
    | Some p => if hidden p then None else ps !! k
    | None => None
    end.
Proof.
  intros Hnd. unfold visible. rewrite visible_lookup_gen by done.
  rewrite lookup_empty. destruct (dict_get k fp) as [p|]; [|done].
  destruct (hidden p); [done|]. by destruct (ps !! k).
Qed.

Lemma _get_all_params_run st :
  registry_valid (fork_params st) →
  let files := default ∅ (params_dir st) in
  ∃ acc files' evs,
    _get_all_params true st
    = (Ok (visible (fork_params st) acc), touch acc files' evs st) ∧
    (∀ k, acc !! k =
          (fun pt => loaded_value pt.1 pt.2) <$> load_of (fork_params st) files k) ∧
    (∀ k, files' !! k =
          match load_of (fork_params st) files k with
          | Some (p, text) => Some (repaired_text p text)
          | None => files !! k
          end) ∧
    (∀ k, is_Some (load_of (fork_params st) files k) → EvRead (param_path k) ∈ evs).
Proof.
  intros Hreg files.
  destruct (_load_params_run st Hreg) as (acc & files' & evs & Hrun & Hacc & Hfiles & Hreads).
  exists acc, files', evs. split; [|done].
  unfold _get_all_params. rewrite bind_run, bind_run, Hrun. done.
Qed.

Lemma initialized_keys st : initialized st → (fork_params st).*1 = registry.*1.
Proof.
  intros <-. rewrite <-list_fmap_compose. by apply list_fmap_ext.
Qed.

Lemma initialized_NoDup st : initialized st → NoDup (fork_params st).*1.
Proof.
  intros ->%initialized_keys. rewrite registry_keys.
  compute_done.
Qed.

Lemma dict_get_elem {A} (d : list (string * A)) k a :
  NoDup d.*1 → (k, a) ∈ d → dict_get k d = Some a.
Proof.
  induction d as [|[k' a'] d IH]; intros Hnd Hin; [by apply elem_of_nil in Hin|].
  apply NoDup_cons in Hnd as [Hk' Hnd]. cbn [dict_get].
  apply elem_of_cons in Hin as [[= <- <-]|Hin]; [by rewrite decide_True|].
  rewrite decide_False; [by apply IH|].
  intros ->. apply Hk'. apply list_elem_of_fmap. by exists (k, a).
Qed.

Lemma init_state_run st :
  __init__ st =
  (ps ← _load_params true;
   modify (set_params ps) ;;
   _add_default_params ;;
   _delete_and_reset) (init_state st).
Proof. reflexivity. Qed.

Lemma _add_default_params_run st files :
  params_dir st = Some files → registry_valid (fork_params st) →
  NoDup (fork_params st).*1 →
  ∃ ps' files' evs,
    _add_default_params st = (Ok tt, touch ps' files' evs st) ∧
    (∀ k, dict_get k (fork_params st) = None →
          ps' !! k = params st !! k ∧ files' !! k = files !! k) ∧
    Forall (fun e => param_event e = true) evs.
Proof.
  intros Hdir Hreg Hnd. unfold _add_default_params. rewrite bind_run. cbn [gets].
  set (body := fun '(key, param) => _).
  set (I := fun (ps' : gmap string pyval)
                (files' : gmap string string) (evs : list event) =>
              (∀ k, dict_get k (fork_params st) = None →
                    ps' !! k = params st !! k ∧ files' !! k = files !! k) ∧
              Forall (fun e => param_event e = true) evs).
  destruct (for_each_touch_ok I (fork_params st) body st (params st) files [])
    as (ps' & files' & evs & Hrun & HI & Hevs).
  { by split. }
  { intros [key param] ps1 files1 evs1 Hin [HI Hevs].
    pose proof (dict_get_elem _ _ _ Hnd Hin) as Hget.
    pose proof (Hreg _ _ Hget) as (Hname & _)%param_ok_inv.
    assert (∀ k, dict_get k (fork_params st) = None → k ≠ key) as Hne.
    { intros k Hk ->. congruence. }
    unfold body. rewrite bind_run. cbn [gets touch params set_params].
    fold (touch ps1 files1 evs1 st).
    destruct (ps1 !! key) as [v|] eqn:Hv.
    - destruct (is_valid param v) eqn:Hvalid; cbn [negb].
      + exists ps1, files1, evs1. by split.
      + unfold warning, print, params_setitem, params_getitem. munfold.
        cbn. rewrite lookup_insert_eq. cbn.
        unfold _write_param, atomic_write. munfold. cbn. rewrite Hname. cbn.
        eexists (<[key := default_value param]> ps1),
                (<[key := json_dumps (default_value param)]> files1), _.
        split.
        { unfold touch. cbn. rewrite <-!app_assoc. cbn. reflexivity. }
        split.
        * intros k Hk. rewrite !lookup_insert_ne by (by apply not_eq_sym, Hne).
          by apply HI.
        * apply Forall_app. split; [done|]. repeat constructor.
    - unfold params_setitem, params_getitem. munfold.
      cbn. rewrite lookup_insert_eq. cbn.
      unfold _write_param, atomic_write. munfold. cbn. rewrite Hname. cbn.
      eexists (<[key := default_value param]> ps1),
              (<[key := json_dumps (default_value param)]> files1), _.
      split.
      { unfold touch. cbn. rewrite <-!app_assoc. cbn. reflexivity. }
      split.
      * intros k Hk. rewrite !lookup_insert_ne by (by apply not_eq_sym, Hne).
        by apply HI.
      * apply Forall_app. split; [done|]. repeat constructor. }
  rewrite touch_id in Hrun by done. exists ps', files', evs. done.
Qed.

Lemma for_each_noop {A} (l : list A) (body : A → M unit) st :
  (∀ x, x ∈ l → body x st = (Ok tt, st)) → for_each l body st = (Ok tt, st).
Proof.
  induction l as [|x l IH]; intros Hbody; [done|].
  cbn [for_each]. rewrite bind_run, Hbody by set_solver. apply IH.
  intros y Hy. apply Hbody. set_solver.
Qed.

(** Nothing in the cache is listed for deletion or reset: the pass does
    nothing. *)
Lemma _delete_and_reset_noop st :
  _to_reset st = [] → (∀ k, is_Some (params st !! k) → k ∉ _to_delete st) →
  _delete_and_reset st = (Ok tt, st).
Proof.
  intros Hreset Hdel. unfold _delete_and_reset. rewrite bind_run. cbn [gets].
  apply for_each_noop. intros key [[k v] [-> Hk]]%list_elem_of_fmap.
  apply elem_of_map_to_list in Hk. munfold. rewrite Hreset.
  rewrite bool_decide_eq_false_2 by (apply Hdel; eauto). cbn.
  by rewrite bool_decide_eq_false_2 by apply not_elem_of_nil.
Qed.

Lemma log_touch s files evs :
  params_dir s = Some files →
  set_trace (trace s ++ evs) s = touch (params s) files evs s.
Proof. intros Hdir. destruct s. cbn in *. unfold touch. cbn. by rewrite Hdir. Qed.

Lemma _import_params_try_run s files :
  params_dir s = Some files →
  ∃ r files' evs,
    _import_params_try s = (r, touch (params s) files' evs s) ∧
    (∀ e, r = Raise e → no_imported_key s →
          files' !! ".imported" = files !! ".imported").
Proof.
  intros Hdir. unfold _import_params_try. rewrite bind_run, open_read_old_run.
  destruct (old_params_file s) as [text|] eqn:Hold.
  2:{ exists (Raise (FileNotFoundError "")), files, []. by rewrite touch_id. }
  rewrite bind_run. unfold loads.
  destruct (json_loads text) as [v|] eqn:Hloads.
  2:{ exists (Raise JSONDecodeError), files, [EvRead OLD_PARAMS_FILE].
      by rewrite (log_touch s files) by done. }
  rewrite mret_run, bind_run, lift_run.
  destruct (py_iter v) as [keys|e] eqn:Hiter.
  2:{ exists (Raise e), files, [EvRead OLD_PARAMS_FILE].
      by rewrite (log_touch s files) by done. }
  rewrite (log_touch s files) by done.
  set (body := fun key : pyval => _).
  destruct (for_each_touch
              (fun ps' files' (_ : list event) =>
                 ps' = params s ∧
                 (VStr ".imported" ∉ keys → files' !! ".imported" = files !! ".imported"))
              keys body s (params s) files [EvRead OLD_PARAMS_FILE])
    as (r & ps' & files' & evs & Hrun & -> & Hsent); [done| |].
  { intros x ps1 files1 evs1 Hx [-> Hsent]. unfold body.
    rewrite bind_run, lift_run.
    destruct (py_getitem v x) as [value|e]; [|by exists (Raise e), (params s), files1, evs1].
    destruct x as [| | | |k| |];
      try by exists (Raise TypeError), (params s), files1, evs1.
    destruct (_write_param_touch_any k value s (params s) files1 evs1)
      as (r & files' & evs' & -> & Hk).
    exists r, (params s), files', (evs1 ++ evs'). split; [done|]. split; [done|].
    intros Hno. rewrite Hk; [by apply Hsent|]. by intros ->. }
  rewrite bind_run, Hrun. destruct r as [[]|e].
  - unfold touch_imported. rewrite (_write_param_touch_raw ".imported") by done.
    by eexists (Ok tt), _, _.
  - exists (Raise e), files', evs. split; [done|]. intros _ _ Hno.
    apply Hsent. eapply Hno; eauto.
Qed.

Lemma _import_params_run s files :
  params_dir s = Some files →
  ∃ files' evs,
    _import_params s = (Ok tt, touch (params s) files' evs s) ∧
    (∀ e s',
       is_Some (old_params_file s) → files !! ".imported" = None →
       _import_params_try
         (set_trace (trace s ++ [EvExists OLD_PARAMS_FILE; EvExists IMPORTED_PATH]) s)
       = (Raise e, s') →
       no_imported_key s → files' !! ".imported" = None) ∧
    (old_params_file s = None → files' = files).
Proof.
  intros Hdir. unfold _import_params. rewrite bind_run, bind_run, os_path_exists_run.
  destruct (old_params_file s) as [text|] eqn:Hold.
  2:{ rewrite bool_decide_eq_false_2 by (by intros []). rewrite mret_run, mret_run.
      rewrite (log_touch s files) by done. eexists _, _. split; [done|].
      split; [|done]. by intros e s' []. }
  rewrite bool_decide_eq_true_2 by eauto.
  rewrite bind_run, os_path_exists_run. cbn [IMPORTED_PATH params_dir set_trace].
  rewrite Hdir.
  assert (set_trace
            (trace (set_trace (trace s ++ [EvExists OLD_PARAMS_FILE]) s)
             ++ [EvExists IMPORTED_PATH])
            (set_trace (trace s ++ [EvExists OLD_PARAMS_FILE]) s)
          = set_trace (trace s ++ [EvExists OLD_PARAMS_FILE; EvExists IMPORTED_PATH]) s)
    as ->.
  { destruct s. cbn. by rewrite <-app_assoc. }
  set (s2 := set_trace _ s).
  destruct (files !! ".imported") as [t|] eqn:Himp.
  { rewrite bool_decide_eq_true_2 by eauto. rewrite mret_run. cbn [negb].
    rewrite mret_run. unfold s2. rewrite (log_touch s files) by done.
    eexists _, _. split; [done|]. split; [|done]. by intros e s' _ [=]. }
  rewrite bool_decide_eq_false_2 by (by intros []). rewrite mret_run. cbn [negb].
  unfold try_except.
  destruct (_import_params_try_run s2 files Hdir) as (r & files' & evs & Hrun & Hsent).
  assert (touch (params s2) files' evs s2
          = touch (params s) files' ([EvExists OLD_PARAMS_FILE; EvExists IMPORTED_PATH] ++ evs) s)
    as Htouch.
  { unfold s2. rewrite (log_touch s files) by done. by rewrite touch_touch. }
  rewrite Hrun, Htouch.
  destruct r as [[]|e]; rewrite ?mret_run; eexists _, _;
    (split; [done|]); (split; [|done]).
  - intros e s' _ _ Hraise. unfold s2 in Hrun. congruence.
  - intros e' s' _ _ Hraise Hno. rewrite (Hsent e); [done|done|].
    intros text' v keys Ht. apply Hno. done.
Qed.

Lemma valid_name_imported : valid_name ".imported" = true.
Proof. reflexivity. Qed.

Lemma loadable_registered fp k p : loadable fp k = Some p → dict_get k fp = Some p.
Proof. unfold loadable. by destruct (String.prefix "." k). Qed.

Lemma load_of_unregistered fp files k : dict_get k fp = None → load_of fp files k = None.
Proof.
  intros Hk. unfold load_of, loadable. rewrite Hk. by destruct (String.prefix "." k).
Qed.

Lemma load_of_registered fp files k : is_Some (load_of fp files k) → is_Some (dict_get k fp).
Proof.
  destruct (dict_get k fp) eqn:Hk; [eauto|].
  rewrite load_of_unregistered by done. by intros [].
Qed.

Lemma load_of_imported fp files : load_of fp files ".imported" = None.
Proof. reflexivity. Qed.

(** [_load_params] always returns, and what it changes. *)
Lemma _load_params_any can_import s0 :
  registry_valid (fork_params s0) →
  ∃ acc files evs,
    _load_params can_import s0 = (Ok acc, touch (params s0) files evs s0) ∧
    (∀ k, is_Some (acc !! k) → is_Some (dict_get k (fork_params s0))) ∧
    (∀ files0, params_dir s0 = Some files0 →
       (∀ k, dict_get k (fork_params s0) = None → files !! k = files0 !! k) ∧
       Forall (fun e => param_event e = true) evs) ∧
    (∀ e s',
       params_dir s0 = None → can_import = true → is_Some (old_params_file s0) →
       _import_params_try
         (set_trace (trace s0 ++ [EvExists PARAMS_DIR; EvMakedirs;
                                  EvExists OLD_PARAMS_FILE; EvExists IMPORTED_PATH])
            (set_params_dir (Some ∅) s0))
       = (Raise e, s') →
       no_imported_key s0 → files !! ".imported" = None) ∧
    (params_dir s0 = None → old_params_file s0 = None → files !! ".imported" = None).
Proof.
  intros Hreg. unfold _load_params.
  rewrite bind_run, os_path_exists_run. cbn [params_dir set_trace].
  set (s1 := set_trace _ s0).
  destruct (params_dir s0) as [files0|] eqn:Hdir.
  - rewrite bool_decide_eq_true_2 by eauto. rewrite bind_run, mret_run.
    destruct (_load_params_listing s1 files0)
      as (acc & files' & evs & Hrun & Hacc & Hfiles & Hevs & Hreads); try done.
    rewrite Hrun. eexists acc, files', _. split.
    { unfold s1. rewrite (log_touch s0 files0) by done. by rewrite touch_touch. }
    split; [|split; [|split]].
    + intros k. rewrite Hacc. intros Hk%fmap_is_Some. by eapply load_of_registered.
    + intros ? [= <-]. split.
      * intros k Hk. rewrite Hfiles. by rewrite load_of_unregistered.
      * by repeat constructor.
    + by intros e s' [=].
    + by intros [=].
  - rewrite bool_decide_eq_false_2 by (by intros []). rewrite bind_run.
    rewrite bind_run. unfold os_makedirs at 1. rewrite bind_run. cbn [log modify].
    set (s2 := set_params_dir _ _).
    assert (params_dir s2 = Some ∅) as Hdir2 by done.
    assert (∀ files evs, touch (params s2) files evs s2
              = touch (params s0) files ([EvExists PARAMS_DIR; EvMakedirs] ++ evs) s0)
      as Hs2.
    { intros files evs. unfold s2, s1, touch. cbn. by rewrite <-!app_assoc. }
    destruct can_import.
    + destruct (_import_params_run s2 ∅ Hdir2) as (files1 & evs1 & Himp & Hsent & Hnone).
      rewrite Himp.
      destruct (_load_params_listing (touch (params s2) files1 evs1 s2) files1)
        as (acc & files' & evs & Hrun & Hacc & Hfiles & Hevs & Hreads); try done.
      rewrite Hrun, touch_touch, Hs2. eexists acc, files', _. split; [done|].
      split; [|split; [|split]].
      * intros k. rewrite Hacc. intros Hk%fmap_is_Some. by eapply load_of_registered.
      * by intros ? [=].
      * intros e s' _ _ Hold Hraise Hno. rewrite Hfiles, load_of_imported.
        eapply Hsent; [done|done| |done].
        rewrite <-Hraise. f_equal. unfold s2, s1. destruct s0. cbn.
        by rewrite <-!app_assoc.
      * intros _ Hold. rewrite Hfiles, load_of_imported, Hnone by done.
        apply lookup_empty.
    + rewrite mret_run.
      destruct (_load_params_listing s2 ∅)
        as (acc & files' & evs & Hrun & Hacc & Hfiles & Hevs & Hreads); try done.
      rewrite Hrun, Hs2. eexists acc, files', _. split; [done|].
      split; [|split; [|split]].
      * intros k. rewrite Hacc. intros Hk%fmap_is_Some. by eapply load_of_registered.
      * by intros ? [=].
      * by intros e s' _ [=].
      * intros _ _. rewrite Hfiles, load_of_imported. apply lookup_empty.
Qed.

Lemma registry_registry_valid : registry_valid registry.
Proof. intros k p Hk. by apply (dict_get_Forall param_ok _ _ _ registry_ok). Qed.

Lemma registry_NoDup : NoDup registry.*1.
Proof. rewrite registry_keys. compute_done. Qed.

Lemma to_delete_unregistered k :
  k ∈ ["use_lqr"; "disengage_on_gas"; "corollaTSS2_use_indi"; "prius_use_pid"] →
  dict_get k registry = None.
Proof.
  intros Hk. repeat (apply elem_of_cons in Hk as [->|Hk]; [by vm_compute|]).
  by apply elem_of_nil in Hk.
Qed.

(** Construction always succeeds; it leaves the files of unregistered
    keys alone, caches registered keys only, and reaches the sentinel only
    through a successful import. *)
Lemma init_run st :
  ∃ ps files evs,
    __init__ st = (Ok tt, touch ps files evs (init_state st)) ∧
    (∀ k, is_Some (ps !! k) → is_Some (dict_get k registry)) ∧
    (∀ files0, params_dir st = Some files0 →
       (∀ k, dict_get k registry = None → files !! k = files0 !! k) ∧
       Forall (fun e => param_event e = true) evs) ∧
    (∀ e s',
       params_dir st = None → is_Some (old_params_file st) →
       _import_params_try (import_state st) = (Raise e, s') →
       no_imported_key st → files !! ".imported" = None) ∧
    (params_dir st = None → old_params_file st = None → files !! ".imported" = None).
Proof.
  rewrite init_state_run. set (s0 := init_state st).
  assert (fork_params s0 = registry) as Hfp by done.
  destruct (_load_params_any true s0)
    as (acc & files1 & evs1 & Hload & Hacc & Hframe1 & Hsent & Hnone).
  { rewrite Hfp. apply registry_registry_valid. }
  rewrite bind_run, Hload, bind_run. cbn [modify].
  set (s1 := set_params acc _).
  assert (s1 = touch acc files1 evs1 s0) as Hs1 by done.
  destruct (_add_default_params_run s1 files1)
    as (ps2 & files2 & evs2 & Hadd & Hframe2 & Hevs2); try done.
  { apply registry_registry_valid. }
  { apply registry_NoDup. }
  rewrite bind_run, Hadd.
  assert (∀ k, is_Some (ps2 !! k) → is_Some (dict_get k registry)) as Hps2.
  { intros k Hk. destruct (dict_get k registry) eqn:Hreg; [eauto|].
    destruct (Hframe2 k) as [Hps _]; [done|]. rewrite Hps in Hk.
    apply Hacc in Hk. rewrite Hfp, Hreg in Hk. by destruct Hk. }
  rewrite _delete_and_reset_noop.
  2:{ done. }
  2:{ intros k Hk Hdel. apply Hps2 in Hk.
      apply to_delete_unregistered in Hdel. rewrite Hdel in Hk. by destruct Hk. }
  rewrite Hs1, touch_touch. exists ps2, files2, (evs1 ++ evs2).
  split; [done|]. split; [done|]. split; [|split].
  - intros files0 Hdir. destruct (Hframe1 files0 Hdir) as [Hf1 He1]. split.
    + intros k Hk. destruct (Hframe2 k) as [_ ->]; [done|]. by apply Hf1.
    + by apply Forall_app.
  - intros e s' Hdir Hold Hraise Hno.
    destruct (Hframe2 ".imported") as [_ ->]; [by vm_compute|].
    by eapply Hsent.
  - intros Hdir Hold.
    destruct (Hframe2 ".imported") as [_ ->]; [by vm_compute|].
    by apply Hnone.
Qed.

End store_facts.

(** ** Reachable states *)

Section reachable.
Context `{Json}.

(** The states the properties are about are the ones a program reaches:
    construction establishes [initialized], and [get] and [put] keep it. *)
Lemma init_initialized st st' :
  __init__ st = (Ok tt, st') → initialized st' ∧ is_Some (params_dir st').
Proof.
  destruct (init_run st) as (ps & files & evs & -> & _).
  intros [= <-]. split; [|by eexists]. unfold initialized. cbn.
  vm_compute. reflexivity.
Qed.

Lemma dict_alter_last_read t key (fp : list (string * Param)) :
  map (fun kp => (kp.1, set_last_read (-1) kp.2)) (dict_alter (set_last_read t) key fp)
  = map (fun kp => (kp.1, set_last_read (-1) kp.2)) fp.
Proof.
  induction fp as [|[k p] fp IH]; [done|]. cbn [dict_alter].
  destruct (decide (k = key)); cbn [map]; [done|]. by rewrite IH.
Qed.

Lemma put_initialized key v st r st' :
  initialized st → put key v st = (r, st') → initialized st'.
Proof.
  intros Hinit. destruct (dict_get key (fork_params st)) as [p|] eqn:Hp.
  - rewrite (put_run _ _ _ p) by done.
    repeat case_match; by intros [= <- <-].
  - unfold put, _check_key_exists. munfold. rewrite Hp. by intros [= <- <-].
Qed.

Lemma get_initialized key force_update st r st' :
  initialized st → get key force_update st = (r, st') → initialized st'.
Proof.
  intros Hinit. destruct key as [key|].
  - destruct (dict_get key (fork_params st)) as [p|] eqn:Hp.
    + rewrite (get_run _ _ _ p); [|done|by eapply initialized_param_ok].
      unfold validated, after_read, after_test, initialized.
      repeat case_match; intros [= <- <-]; cbn;
        by rewrite ?dict_alter_last_read.
    + unfold get, _check_key_exists. munfold. rewrite Hp. by intros [= <- <-].
  - destruct force_update.
    + destruct (_get_all_params_run st (initialized_valid _ Hinit))
        as (acc & files' & evs & Hrun & _).
      unfold get. rewrite bind_run, Hrun, mret_run. by intros [= <- <-].
    + by intros [= <- <-].
Qed.
End reachable.

(** ** Loops over distinct keys, and construction key by key *)

Lemma list_remove_other (x y : pytype) l : x ≠ y → x ∈ l → x ∈ list_remove y l.
Proof.
  intros Hne. induction l as [|z l IH]; [done|]. cbn.
  intros [->|Hx]%elem_of_cons.
  - rewrite decide_False by done. apply elem_of_cons. by left.
  - destruct (decide (z = y)); [done|]. apply elem_of_cons. right. by apply IH.
Qed.

Lemma list_remove_NoDup (y : pytype) l : NoDup l → y ∉ list_remove y l.
Proof.
  induction l as [|z l IH]; cbn; [intros _ []%elem_of_nil|].
  intros [Hz Hl]%NoDup_cons. destruct (decide (z = y)) as [->|Hne]; [done|].
  apply not_elem_of_cons. split; [done|]. by apply IH.
Qed.



Lemma dict_get_None {A} (d : list (string * A)) k :
  dict_get k d = None ↔ k ∉ d.*1.
Proof.
  induction d as [|[k' a] d IH]; cbn.
  - split; [|done]. intros _ []%elem_of_nil.
  - rewrite not_elem_of_cons. destruct (decide (k' = k)) as [->|Hne].
    + split; [done|]. by intros [[] _].
    + rewrite IH. split; [|by intros [_ ?]]. intros Hk. split; [|done]. by intros ->.
Qed.

Lemma dict_get_is_Some {A} (d : list (string * A)) k :
  k ∈ d.*1 → is_Some (dict_get k d).
Proof.
  intros Hk. destruct (dict_get k d) eqn:Hd; [eauto|].
  by apply dict_get_None in Hd.
Qed.

Lemma dict_get_alter {A} (f : A → A) key k (d : list (string * A)) :
  dict_get k (dict_alter f key d)
  = (if decide (k = key) then f else id) <$> dict_get k d.
Proof.
  induction d as [|[k' a] d IH]; [done|]. cbn [dict_alter dict_get].
  destruct (decide (k' = key)) as [->|Hne]; cbn [dict_get].
  - destruct (decide (key = k)) as [->|Hne].
    + by rewrite decide_True.
    + rewrite decide_False by done. by destruct (dict_get k d).
  - destruct (decide (k' = k)) as [->|Hne'].
    + by rewrite decide_False.
    + apply IH.
Qed.

Section keyed_facts.
Context `{Json}.


(** Loops whose iterations succeed and each touch one key of the cache and
    of the directory, the keys being distinct: the outcome at each key is
    the one of its own iteration. *)
Lemma for_each_keyed {A} (key : A → string)
    (Q : A → option pyval → option string → Prop)
    (E : event → Prop) (body : A → M unit) st
    (ps0 : gmap string pyval) (files0 : gmap string string) (l : list A) :
  NoDup (key <$> l) →
  (∀ x (ps : gmap string pyval) (files : gmap string string) evs, x ∈ l →
     ps !! key x = ps0 !! key x → files !! key x = files0 !! key x →
     ∃ ps' files' evs',
       body x (touch ps files evs st) = (Ok tt, touch ps' files' (evs ++ evs') st) ∧
       Q x (ps' !! key x) (files' !! key x) ∧
       (∀ k, k ≠ key x → ps' !! k = ps !! k ∧ files' !! k = files !! k) ∧
       Forall E evs') →
  ∀ (ps : gmap string pyval) (files : gmap string string) evs,
    (∀ x, x ∈ l → ps !! key x = ps0 !! key x ∧ files !! key x = files0 !! key x) →
    ∃ ps' files' evs',
      for_each l body (touch ps files evs st) = (Ok tt, touch ps' files' (evs ++ evs') st) ∧
      (∀ x, x ∈ l → Q x (ps' !! key x) (files' !! key x)) ∧
      (∀ k, k ∉ key <$> l → ps' !! k = ps !! k ∧ files' !! k = files !! k) ∧
      Forall E evs'.
Proof.
  induction l as [|x l IH]; intros Hnd Hbody ps files evs Hagree.
  - exists ps, files, []. rewrite app_nil_r. repeat split; try done.
    intros x []%elem_of_nil.
  - rewrite fmap_cons in Hnd. apply NoDup_cons in Hnd as [Hx Hnd].
    cbn [for_each]. rewrite bind_run.
    destruct (Hbody x ps files evs) as (ps1 & files1 & evs1 & -> & HQ & Hframe & HE);
      [by apply elem_of_cons; left|by apply Hagree, elem_of_cons; left..|].
    assert (∀ y, y ∈ l → key y ≠ key x) as Hne.
    { intros y Hy Heq. apply Hx. rewrite <-Heq. by apply list_elem_of_fmap_2. }
    destruct (IH Hnd) with (ps := ps1) (files := files1) (evs := evs ++ evs1)
      as (ps' & files' & evs' & Hrun & HQ' & Hframe' & HE').
    { intros y ps2 files2 evs2 Hy. apply Hbody, elem_of_cons. by right. }
    { intros y Hy. destruct (Hframe (key y)) as [-> ->]; [by apply Hne|].
      apply Hagree, elem_of_cons. by right. }
    rewrite Hrun. exists ps', files', (evs1 ++ evs'). rewrite app_assoc.
    split; [done|]. split; [|split].
    + intros y [->|Hy]%elem_of_cons; [|by apply HQ'].
      destruct (Hframe' (key x)) as [-> ->]; done.
    + intros k Hk. rewrite fmap_cons in Hk. apply not_elem_of_cons in Hk as [Hk1 Hk2].
      destruct (Hframe' k Hk2) as [-> ->]. by apply Hframe.
    + by apply Forall_app.
Qed.

(** [_add_default_params]: every entry ends up cached with a valid value,
    the cached one if it was valid and the default otherwise, and the file
    is rewritten exactly when the default is taken. *)
Lemma _add_default_params_post st files :
  params_dir st = Some files → registry_valid (fork_params st) →
  NoDup (fork_params st).*1 →
  ∃ ps' files' evs,
    _add_default_params st = (Ok tt, touch ps' files' evs st) ∧
    (∀ k p, dict_get k (fork_params st) = Some p →
       ps' !! k = Some (settled p (params st !! k)) ∧
       files' !! k = if kept p (params st !! k) then files !! k
                     else Some (json_dumps (default_value p))) ∧
    (∀ k, dict_get k (fork_params st) = None →
       ps' !! k = params st !! k ∧ files' !! k = files !! k) ∧
    Forall (fun e => print_or_write e = true) evs.
Proof.
  intros Hdir Hreg Hnd. unfold _add_default_params. rewrite bind_run. cbn [gets].
  set (body := fun '(key, param) => _).
  destruct (for_each_keyed fst
              (fun kp c f =>
                 c = Some (settled kp.2 (params st !! kp.1)) ∧
                 f = if kept kp.2 (params st !! kp.1) then files !! kp.1
                     else Some (json_dumps (default_value kp.2)))
              (fun e => print_or_write e = true)
              body st (params st) files (fork_params st) Hnd)
    with (ps := params st) (files := files) (evs := @nil event)
    as (ps' & files' & evs & Hrun & HQ & Hframe & HE).
  { intros [key param] ps1 files1 evs1 Hin Hps Hfiles. cbn [fst snd] in *.
    pose proof (dict_get_elem _ _ _ Hnd Hin) as Hget.
    pose proof (Hreg _ _ Hget) as (Hname & _)%param_ok_inv.
    unfold body. rewrite bind_run. cbn [gets touch params set_params].
    fold (touch ps1 files1 evs1 st). rewrite Hps. unfold settled, kept.
    destruct (params st !! key) as [v|] eqn:Hv.
    - destruct (is_valid param v) eqn:Hvalid; cbn [negb].
      + exists ps1, files1, []. rewrite app_nil_r. by repeat split.
      + unfold warning, print, params_setitem, params_getitem. munfold.
        cbn. rewrite lookup_insert_eq. cbn.
        unfold _write_param, atomic_write. munfold. cbn. rewrite Hname. cbn.
        eexists (<[key := default_value param]> ps1),
                (<[key := json_dumps (default_value param)]> files1), _.
        split.
        { unfold touch. cbn. rewrite <-!app_assoc. cbn. reflexivity. }
        rewrite !lookup_insert_eq. repeat split; try done.
        * by rewrite lookup_insert_ne.
        * by rewrite lookup_insert_ne.
        * repeat constructor.
    - unfold params_setitem, params_getitem. munfold.
      cbn. rewrite lookup_insert_eq. cbn.
      unfold _write_param, atomic_write. munfold. cbn. rewrite Hname. cbn.
      eexists (<[key := default_value param]> ps1),
              (<[key := json_dumps (default_value param)]> files1), _.
      split.
      { unfold touch. cbn. rewrite <-!app_assoc. cbn. reflexivity. }
      rewrite !lookup_insert_eq. repeat split; try done.
      * by rewrite lookup_insert_ne.
      * by rewrite lookup_insert_ne.
      * repeat constructor. }
  { done. }
  rewrite touch_id in Hrun by done. rewrite Hrun. cbn [app].
  exists ps', files', evs. split; [done|]. split; [|split; [|done]].
  - intros k p Hk.
    assert ((k, p) ∈ fork_params st) as Hin.
    { clear -Hk. induction (fork_params st) as [|[k' a] d IH]; [done|]. cbn in Hk.
      destruct (decide (k' = k)) as [->|]; [injection Hk as ->; by apply elem_of_cons; left|].
      apply elem_of_cons. right. by apply IH. }
    destruct (HQ _ Hin) as [Hc Hf]. cbn [fst snd] in *. by rewrite Hc, Hf.
  - intros k Hk%dict_get_None. by apply Hframe.
Qed.

Lemma _delete_and_reset_run st files :
  params_dir st = Some files →
  (∀ k, is_Some (params st !! k) → k ∈ _to_delete st → is_Some (files !! k)) →
  (∀ k, is_Some (params st !! k) → k ∉ _to_delete st → k ∈ _to_reset st →
        is_Some (dict_get k (fork_params st)) → valid_name k = true) →
  ∃ ps' files' evs,
    _delete_and_reset st = (Ok tt, touch ps' files' evs st) ∧
    (∀ k, is_Some (params st !! k) → (ps' !! k, files' !! k) = swept st k) ∧
    (∀ k, params st !! k = None → ps' !! k = None ∧ files' !! k = files !! k).
Proof.
  intros Hdir Hdel Hreset. unfold _delete_and_reset. rewrite bind_run. cbn [gets].
  set (body := fun key : string => _).
  destruct (for_each_keyed id
              (fun k c f => (c, f) = swept st k) (fun _ => True)
              body st (params st) files (map_to_list (params st)).*1)
    with (ps := params st) (files := files) (evs := @nil event)
    as (ps' & files' & evs & Hrun & HQ & Hframe & _).
  { rewrite list_fmap_id. apply NoDup_fst_map_to_list. }
  { intros key ps1 files1 evs1 [[k v] [-> Hk]]%list_elem_of_fmap Hps Hfiles.
    apply elem_of_map_to_list in Hk. cbn [fst id] in *.
    unfold body, swept, file_of. munfold. cbn. rewrite Hdir. cbn.
    destruct (bool_decide (k ∈ _to_delete st)) eqn:Hd.
    - apply bool_decide_eq_true in Hd.
      destruct (Hdel k) as [text Htext]; [by eauto|done|].
      unfold os_remove. munfold. cbn. rewrite Hfiles, Htext. cbn.
      eexists (delete k ps1), (delete k files1), _. split; [unfold touch; cbn; rewrite <-app_assoc; reflexivity|].
      rewrite !lookup_delete_eq. split; [done|]. split; [|by repeat constructor].
      intros k' Hne. by rewrite !lookup_delete_ne.
    - apply bool_decide_eq_false in Hd.
      destruct (bool_decide (k ∈ _to_reset st)) eqn:Hr; cbn.
      + apply bool_decide_eq_true in Hr.
        destruct (dict_get k (fork_params st)) as [p|] eqn:Hp.
        * rewrite bool_decide_eq_true_2 by eauto.
          unfold fork_params_getitem, params_setitem, params_getitem. munfold. cbn.
          rewrite Hp. cbn. rewrite lookup_insert_eq. cbn.
          unfold _write_param, atomic_write. munfold. cbn.
          rewrite Hreset by eauto. cbn.
          eexists (<[k := default_value p]> ps1),
                  (<[k := json_dumps (default_value p)]> files1), _.
          split; [unfold touch; cbn; rewrite <-app_assoc; reflexivity|].
          rewrite !lookup_insert_eq. split; [done|]. split; [|by repeat constructor].
          intros k' Hne. by rewrite !lookup_insert_ne.
        * rewrite bool_decide_eq_false_2 by (by intros []).
          exists ps1, files1, []. rewrite app_nil_r. split; [done|].
          rewrite Hps, Hfiles. done.
      + exists ps1, files1, []. rewrite app_nil_r. split; [done|].
        rewrite Hps, Hfiles. done. }
  { done. }
  rewrite touch_id in Hrun by done. rewrite Hrun. cbn [app].
  exists ps', files', evs. split; [done|]. split.
  - intros k [v Hk]. apply (HQ k). apply list_elem_of_fmap. exists (k, v).
    split; [done|]. by apply elem_of_map_to_list.
  - intros k Hk. rewrite <-Hk. apply Hframe. rewrite list_fmap_id.
    intros [[k' v] [-> Hk']]%list_elem_of_fmap. apply elem_of_map_to_list in Hk'.
    cbn in Hk. congruence.
Qed.

Lemma _load_params_full can_import s0 :
  registry_valid (fork_params s0) →
  ∃ listed acc files evs,
    _load_params can_import s0 = (Ok acc, touch (params s0) files evs s0) ∧
    lists can_import s0 listed ∧
    (∀ k, acc !! k =
          (fun pt => loaded_value pt.1 pt.2) <$> load_of (fork_params s0) listed k) ∧
    (∀ k, files !! k =
          match load_of (fork_params s0) listed k with
          | Some (p, text) => Some (repaired_text p text)
          | None => listed !! k
          end).
Proof.
  intros Hreg. unfold _load_params, lists.
  rewrite bind_run, os_path_exists_run. cbn [params_dir set_trace].
  set (s1 := set_trace _ s0).
  destruct (params_dir s0) as [files0|] eqn:Hdir.
  - rewrite bool_decide_eq_true_2 by eauto. rewrite bind_run, mret_run.
    destruct (_load_params_listing s1 files0)
      as (acc & files' & evs & Hrun & Hacc & Hfiles & Hevs & Hreads); try done.
    rewrite Hrun. eexists files0, acc, files', _. split.
    { unfold s1. rewrite (log_touch s0 files0) by done. by rewrite touch_touch. }
    done.
  - rewrite bool_decide_eq_false_2 by (by intros []). rewrite bind_run.
    rewrite bind_run. unfold os_makedirs at 1. rewrite bind_run. cbn [log modify].
    set (s2 := set_params_dir _ _).
    assert (s2 = fresh_dir s0) as Hfresh.
    { unfold s2, s1, fresh_dir. destruct s0. cbn. by rewrite <-app_assoc. }
    assert (params_dir s2 = Some ∅) as Hdir2 by done.
    assert (∀ files evs, touch (params s2) files evs s2
              = touch (params s0) files ([EvExists PARAMS_DIR; EvMakedirs] ++ evs) s0)
      as Hs2.
    { intros files evs. unfold s2, s1, touch. cbn. by rewrite <-!app_assoc. }
    destruct can_import.
    + destruct (_import_params_run s2 ∅ Hdir2) as (files1 & evs1 & Himp & _).
      rewrite Himp.
      destruct (_load_params_listing (touch (params s2) files1 evs1 s2) files1)
        as (acc & files' & evs & Hrun & Hacc & Hfiles & Hevs & Hreads); try done.
      rewrite Hrun, touch_touch, Hs2. eexists files1, acc, files', _. split; [done|].
      split; [|done]. exists evs1. by rewrite <-Hfresh.
    + rewrite mret_run.
      destruct (_load_params_listing s2 ∅)
        as (acc & files' & evs & Hrun & Hacc & Hfiles & Hevs & Hreads); try done.
      rewrite Hrun, Hs2. by eexists ∅, acc, files', _.
Qed.

Lemma settled_text_loads key p file :
  param_ok key p = true →
  json_loads (settled_text p file) = Some (settled p (file ≫= json_loads)).
Proof.
  intros Hok. pose proof (default_scalar _ _ Hok) as Hd.
  unfold settled_text, settled, kept. destruct file as [text|]; cbn.
  - destruct (json_loads text) as [v|] eqn:Hv; [|by apply json_loads_dumps].
    destruct (is_valid p v); [done|by apply json_loads_dumps].
  - by apply json_loads_dumps.
Qed.

Lemma settled_valid key p c : param_ok key p = true → is_valid p (settled p c) = true.
Proof.
  intros (_ & _ & _ & _ & Hd & _)%param_ok_inv. unfold settled.
  destruct c as [v|]; [|done]. by destruct (is_valid p v) eqn:Hv.
Qed.

(** Construction, key by key: with [listed] the directory that
    [_load_params] lists, every registered key ends up cached with the value
    decoded from its file when that value is valid and with its default
    otherwise, its file holding a text that decodes to the cached value;
    nothing else is cached and no other file changes. *)
Lemma init_full st :
  ∃ listed ps files evs,
    __init__ st = (Ok tt, touch ps files evs (init_state st)) ∧
    lists true (init_state st) listed ∧
    (∀ k p, dict_get k registry = Some p →
       ps !! k = Some (settled p (listed !! k ≫= json_loads)) ∧
       files !! k = Some (settled_text p (listed !! k))) ∧
    (∀ k, dict_get k registry = None → ps !! k = None ∧ files !! k = listed !! k).
Proof.
  rewrite init_state_run. set (s0 := init_state st).
  assert (fork_params s0 = registry) as Hfp by reflexivity.
  destruct (_load_params_full true s0)
    as (listed & acc & files1 & evs1 & Hload & Hlists & Hacc & Hfiles1).
  { rewrite Hfp. apply registry_registry_valid. }
  rewrite Hfp in Hacc, Hfiles1.
  rewrite bind_run, Hload, bind_run. cbn [modify].
  set (s1 := set_params acc _).
  assert (s1 = touch acc files1 evs1 s0) as Hs1 by reflexivity.
  assert (fork_params s1 = registry) as Hfp1 by reflexivity.
  assert (params s1 = acc) as Hps1 by reflexivity.
  destruct (_add_default_params_post s1 files1)
    as (ps2 & files2 & evs2 & Hadd & Hreg2 & Hframe2 & Hevs2).
  { reflexivity. }
  { rewrite Hfp1. apply registry_registry_valid. }
  { rewrite Hfp1. apply registry_NoDup. }
  rewrite Hfp1, Hps1 in Hreg2, Hframe2.
  rewrite bind_run, Hadd.
  assert (∀ k, dict_get k registry = None → ps2 !! k = None ∧ files2 !! k = listed !! k)
    as Hunreg.
  { intros k Hk. destruct (Hframe2 k Hk) as [-> ->].
    rewrite Hacc, Hfiles1, load_of_unregistered by exact Hk. by split. }
  rewrite _delete_and_reset_noop.
  2:{ reflexivity. }
  2:{ intros k [c Hk] Hdel. apply to_delete_unregistered in Hdel.
      change (ps2 !! k = Some c) in Hk. destruct (Hunreg k Hdel). congruence. }
  rewrite Hs1, touch_touch. exists listed, ps2, files2, (evs1 ++ evs2).
  split; [reflexivity|]. split; [exact Hlists|]. split; [|exact Hunreg].
  clearbody s0 s1. clear Hload Hadd Hs1 Hlists.
  intros k p Hk. destruct (Hreg2 k p Hk) as [-> ->].
  pose proof (registry_registry_valid _ _ Hk) as Hok.
  pose proof Hok as (_ & Hdot & _ & _ & Hdef & _)%param_ok_inv.
  rewrite Hacc, Hfiles1. unfold load_of, loadable. rewrite Hdot, Hk.
  clear Hacc Hfiles1 Hreg2 Hframe2 Hunreg Hk Hok.
  unfold settled_text, settled, kept, loaded_value, repaired_text.
  destruct (listed !! k) as [text|]; cbn; [|done].
  destruct (json_loads text) as [v|]; cbn; [|by rewrite Hdef].
  by destruct (is_valid p v).
Qed.

Lemma trace_touch ps files evs evs' s :
  set_trace (trace (touch ps files evs s) ++ evs') (touch ps files evs s)
  = touch ps files (evs ++ evs') s.
Proof. unfold touch. cbn. by rewrite <-app_assoc. Qed.

(** The import of a legacy mapping with distinct keys that all name files:
    each key gets a file holding the JSON text of its value, and the
    sentinel is created last. *)
Lemma _import_params_ok s files text d :
  params_dir s = Some files → old_params_file s = Some text →
  json_loads text = Some (VDict d) →
  NoDup d.*1 → Forall (fun k => valid_name k = true) d.*1 →
  files !! ".imported" = None →
  ∃ files' evs,
    _import_params s = (Ok tt, touch (params s) files' evs s) ∧
    files' !! ".imported" = Some "" ∧
    (∀ k, k ≠ ".imported" →
          files' !! k = match dict_get k d with
                        | Some v => Some (json_dumps v)
                        | None => files !! k
                        end).
Proof.
  intros Hdir Hold Hloads Hnd Hnames Hsent.
  unfold _import_params. rewrite bind_run, bind_run, os_path_exists_run.
  rewrite Hold, bool_decide_eq_true_2 by eauto.
  rewrite bind_run, os_path_exists_run. cbn [IMPORTED_PATH params_dir set_trace].
  rewrite Hdir.
  assert (set_trace
            (trace (set_trace (trace s ++ [EvExists OLD_PARAMS_FILE]) s)
             ++ [EvExists IMPORTED_PATH])
            (set_trace (trace s ++ [EvExists OLD_PARAMS_FILE]) s)
          = touch (params s) files [EvExists OLD_PARAMS_FILE; EvExists IMPORTED_PATH] s)
    as ->.
  { destruct s. cbn in *. unfold touch. cbn. by rewrite <-app_assoc, Hdir. }
  rewrite Hsent, bool_decide_eq_false_2 by (by intros []). rewrite mret_run. cbn [negb].
  unfold try_except, _import_params_try.
  rewrite bind_run, open_read_old_run.
  assert (∀ ps f e, old_params_file (touch ps f e s) = Some text) as -> by done.
  rewrite trace_touch, bind_run. unfold loads.
  rewrite Hloads, mret_run, bind_run, lift_run.
  cbn [py_iter app]. rewrite bind_run.
  set (body := fun key : pyval => _).
  set (name := fun x : pyval => match x with VStr k => k | _ => "" end).
  destruct (for_each_keyed name
              (fun x c f => c = params s !! name x ∧
                            f = json_dumps <$> dict_get (name x) d)
              (fun _ => True)
              body s (params s) files (map (fun kv => VStr kv.1) d))
    with (ps := params s) (files := files)
         (evs := [EvExists OLD_PARAMS_FILE; EvExists IMPORTED_PATH; EvRead OLD_PARAMS_FILE])
    as (ps' & files' & evs & Hrun & HQ & Hframe & _).
  { by rewrite <-list_fmap_compose. }
  { intros x ps1 files1 evs1 [[k v] [-> Hk]]%list_elem_of_fmap Hps Hfiles.
    cbn [name fst] in *. unfold body. rewrite bind_run, lift_run. cbn [py_getitem].
    destruct (dict_get_is_Some d k) as [v' Hv']; [by apply (list_elem_of_fmap_2 fst) in Hk|].
    rewrite Hv'. rewrite _write_param_touch.
    2:{ rewrite Forall_forall in Hnames. apply Hnames.
        by apply (list_elem_of_fmap_2 fst) in Hk. }
    eexists ps1, _, _. split; [reflexivity|]. rewrite lookup_insert_eq.
    split; [done|]. split; [|by repeat constructor].
    intros k' Hne. by rewrite lookup_insert_ne. }
  { done. }
  rewrite Hrun.
  unfold touch_imported. rewrite (_write_param_touch_raw ".imported") by done.
  assert (ps' = params s) as ->.
  { apply map_eq. intros k. destruct (decide (k ∈ d.*1)) as [[[k' v] [-> Hk]]%list_elem_of_fmap|Hk].
    - destruct (HQ (VStr k')) as [Hc _]; [|done].
      apply list_elem_of_fmap. by exists (k', v).
    - apply Hframe. by rewrite <-list_fmap_compose. }
  eexists _, _. split; [done|]. rewrite lookup_insert_eq. split; [done|].
  intros k Hne. rewrite lookup_insert_ne by done.
  destruct (dict_get k d) as [v|] eqn:Hv.
  - assert (k ∈ d.*1) as [[k' v'] [-> Hk]]%list_elem_of_fmap.
    { apply dec_stable. intros Hk%dict_get_None. congruence. }
    destruct (HQ (VStr k')) as [_ Hf].
    { apply list_elem_of_fmap. by exists (k', v'). }
    cbn [name fst] in *. by rewrite Hf, Hv.
  - apply dict_get_None in Hv. apply Hframe. by rewrite <-list_fmap_compose.
Qed.

Lemma _import_params_imported s text :
  old_params_file s = Some text → is_Some (file_of s ".imported") →
  _import_params s
  = (Ok tt, set_trace (trace s ++ [EvExists OLD_PARAMS_FILE; EvExists IMPORTED_PATH]) s).
Proof.
  intros Hold Hsent. unfold file_of in Hsent.
  unfold _import_params. rewrite bind_run, bind_run, os_path_exists_run.
  rewrite Hold, bool_decide_eq_true_2 by eauto.
  rewrite bind_run, os_path_exists_run. cbn [IMPORTED_PATH params_dir set_trace].
  destruct (params_dir s) as [files|]; [|by destruct Hsent].
  cbn in Hsent. rewrite bool_decide_eq_true_2 by done. rewrite mret_run. cbn [negb].
  rewrite mret_run. destruct s. cbn. by rewrite <-app_assoc.
Qed.

Lemma registry_initialized st : fork_params st = registry → initialized st.
Proof. intros Hfp. unfold initialized. rewrite Hfp. vm_compute. reflexivity. Qed.

(** The store construction leaves is coherent. *)
Lemma init_coherent st : (__init__ st).1 = Ok tt ∧ coherent (__init__ st).2.
Proof.
  destruct (init_full st) as (listed & ps & files & evs & -> & _ & Hreg & _).
  split; [done|]. split; [by apply registry_initialized|].
  intros key p Hp. cbn in Hp. destruct (Hreg key p Hp) as [Hc Hf].
  pose proof (registry_registry_valid _ _ Hp) as Hok.
  eexists _, _. split; [exact Hc|]. split; [by eapply settled_valid|].
  split; [unfold file_of; cbn; exact Hf|]. by eapply settled_text_loads.
Qed.

(** The cache and the directory of a coherent store only matter at the
    registered keys, and the registry only up to the [last_read] stamps. *)
Lemma coherent_ext st st' :
  coherent st → initialized st' →
  (∀ k, is_Some (dict_get k (fork_params st)) →
        params st' !! k = params st !! k ∧ file_of st' k = file_of st k) →
  coherent st'.
Proof.
  intros [Hinit Hco] Hinit' Hsame. split; [done|]. intros key p' Hp'.
  assert (dict_get key registry = Some (set_last_read (-1) p')) as Hr.
  { rewrite <-Hinit', dict_get_map, Hp'. done. }
  rewrite <-Hinit, dict_get_map in Hr.
  destruct (dict_get key (fork_params st)) as [p|] eqn:Hp; [|done].
  injection Hr as Hr.
  destruct (Hco key p Hp) as (c & text & Hc & Hv & Hf & Hl).
  destruct (Hsame key) as [Hc' Hf']; [by rewrite Hp|].
  exists c, text. rewrite Hc', Hf'. repeat split; try done.
  unfold is_valid in *. destruct p, p'. cbn in *. by simplify_eq.
Qed.

End keyed_facts.

(** ** The properties *)

Section claims.
Context `{Json}.

(** C1.  For every registered key and every value [v] valid for it,
    [put(key, v)] writes [json.dumps(v)] to the file of the key, and an
    immediately following [get(key, force_update=True)] re-reads that file
    and returns [v]. *)
Theorem put_then_forced_get_returns st key p v :
  initialized st → dict_get key (fork_params st) = Some p →
  is_valid p v = true → is_Some (params_dir st) →
  ∃ st1 st2,
    put key v st = (Ok tt, st1) ∧
    file_of st1 key = Some (json_dumps v) ∧
    get (Some key) true st1 = (Ok (one_value v), st2) ∧
    new_events st1 st2 = [EvRead (param_path key)].
Proof.
  intros Hinit Hp Hvalid [files Hdir].
  pose proof (initialized_param_ok _ _ _ Hinit Hp) as Hok.
  pose proof Hok as (Hname & _ & Htypes & Hscalar & _ & _)%param_ok_inv.
  pose proof (valid_scalar _ _ Htypes Hscalar Hvalid) as Hv.
  rewrite (put_run _ _ _ p), Hvalid, Hdir, Hname by done. cbn zeta.
  eexists _, _. split; [done|]. split.
  { unfold file_of. cbn. by rewrite lookup_insert_eq. }
  rewrite (get_run _ _ _ p) by done.
  unfold refresh_due. rewrite orb_true_r. cbn [params_dir set_params_dir].
  rewrite lookup_insert_eq, json_loads_dumps by done. cbn zeta.
  unfold validated. rewrite Hvalid. split; [done|].
  apply new_events_app. unfold after_read, after_test. by destruct (static p).
Qed.

(** C3.  For every registered key and every value that fails the key's
    [is_valid], [put] raises [InvalidValueType] and leaves the whole state,
    cache and parameters directory included, as it was. *)
Theorem put_invalid_raises_unchanged st key p v :
  dict_get key (fork_params st) = Some p → is_valid p v = false →
  put key v st = (Raise InvalidValueType, st).
Proof. intros Hp Hv. by rewrite (put_run _ _ _ p), Hv. Qed.



(** C4.  For a registered key that is not static and whose file holds
    malformed JSON, a [get] that refreshes (forced, or the refresh interval
    has elapsed since [last_read]) returns the default and leaves the file
    holding the JSON text of the default. *)
Theorem get_repairs_malformed_file st key p force_update text :
  initialized st → dict_get key (fork_params st) = Some p → static p = false →
  file_of st key = Some text → json_loads text = None →
  (force_update = true ∨
   ∃ rate, read_frequency p = Some rate ∧
           (rate <= clock st (ticks st) - last_read p)%Q) →
  ∃ st',
    get (Some key) force_update st = (Ok (one_value (default_value p)), st') ∧
    file_of st' key = Some (json_dumps (default_value p)) ∧
    json_loads (json_dumps (default_value p)) = Some (default_value p) ∧
    params st' !! key = Some (default_value p) ∧
    (∀ k, k ≠ key → file_of st' k = file_of st k).
Proof.
  intros Hinit Hp Hstatic Hfile Hloads Hdue.
  unfold file_of in Hfile. destruct (params_dir st) as [files|] eqn:Hdir; [|done].
  cbn in Hfile.
  pose proof (initialized_param_ok _ _ _ Hinit Hp) as Hok.
  pose proof Hok as (_ & _ & _ & _ & Hdef & _)%param_ok_inv.
  assert (refresh_due p st force_update = true) as Hrefresh.
  { unfold refresh_due. rewrite Hstatic. cbn [negb andb].
    destruct Hdue as [->|(rate & -> & Hrate)]; [apply orb_true_r|].
    apply Qle_bool_iff in Hrate. by rewrite Hrate. }
  rewrite (get_run _ _ _ p), Hrefresh, Hdir, Hfile, Hloads by done. cbn zeta.
  unfold validated. rewrite Hdef. eexists. split; [done|].
  unfold file_of. cbn. rewrite Hdir. cbn. rewrite !lookup_insert_eq.
  split; [done|]. split; [|split; [done|]].
  - apply json_loads_dumps. by eapply default_scalar.
  - intros k Hk. by rewrite lookup_insert_ne.
Qed.

(** C5 (amended).  The read of a file returns [(None, False)] when the text
    does not decode, so [get] never raises [JSONDecodeError]; a missing file
    makes the read raise [FileNotFoundError], and a [get] that refreshes
    raises it too. *)
Theorem read_param_decode_failure_only st key :
  (∀ text, file_of st key = Some text → json_loads text = None →
     _read_param key st
     = (Ok (VNone, false), set_trace (trace st ++ [EvRead (param_path key)]) st)) ∧
  (file_of st key = None →
     _read_param key st = (Raise (FileNotFoundError key), st)) ∧
  (∀ p force_update,
     initialized st → dict_get key (fork_params st) = Some p →
     (file_of st key = None → refresh_due p st force_update = true →
        ∃ st', get (Some key) force_update st = (Raise (FileNotFoundError key), st')) ∧
     (∀ r st', get (Some key) force_update st = (r, st') → r ≠ Raise JSONDecodeError)).
Proof.
  split; [|split].
  - intros text Hfile Hloads. by rewrite _read_param_run, Hfile, Hloads.
  - intros Hfile. by rewrite _read_param_run, Hfile.
  - intros p force_update Hinit Hp.
    pose proof (initialized_param_ok _ _ _ Hinit Hp) as Hok.
    rewrite (get_run _ _ _ p) by done. unfold file_of, validated. split.
    + intros Hfile ->. destruct (params_dir st) as [files|]; [|eauto].
      cbn in Hfile. rewrite Hfile. eauto.
    + intros r st'.
      repeat (case_match; try (by intros [= <- _])).
Qed.

(** C6 (amended).  For a static parameter, [get(key)] without
    [force_update] never reads the file, whatever the clock says: it neither
    reads the clock nor touches the directory, and only prints.  With
    [force_update=True], [get(key)] and [get()] both re-read an existing
    file. *)
Theorem static_read_only_when_forced st key p :
  initialized st → dict_get key (fork_params st) = Some p → static p = true →
  (∀ r st', get (Some key) false st = (r, st') →
     params_dir st' = params_dir st ∧ params st' = params st ∧
     ticks st' = ticks st ∧
     ∀ e, e ∈ new_events st st' → ∃ text, e = EvPrint text) ∧
  (∀ text, file_of st key = Some text →
     (∃ r st', get (Some key) true st = (Ok r, st') ∧
               EvRead (param_path key) ∈ new_events st st') ∧
     (∃ m st', get None true st = (Ok (all_params m), st') ∧
               EvRead (param_path key) ∈ new_events st st')).
Proof.
  intros Hinit Hp Hstatic.
  pose proof (initialized_param_ok _ _ _ Hinit Hp) as Hok.
  pose proof Hok as (_ & Hdot & _ & _ & Hdef & _)%param_ok_inv.
  split.
  - intros r st'. rewrite (get_run _ _ _ p) by done.
    unfold refresh_due, after_test, validated. rewrite Hstatic. cbn [negb andb orb].
    destruct (params st !! key) as [c|].
    + destruct (is_valid p c); intros [= <- <-].
      * repeat split; try done. rewrite (new_events_app st st []) by by rewrite app_nil_r.
        by intros e ?%elem_of_nil.
      * repeat split; try done. rewrite (new_events_app _ _ warn_invalid) by done.
        intros e He. unfold warn_invalid in He.
        repeat (apply elem_of_cons in He as [->|He]; [eauto|]).
        by apply elem_of_nil in He.
    + intros [= <- <-]. repeat split; try done.
      rewrite (new_events_app st st []) by by rewrite app_nil_r.
      by intros e ?%elem_of_nil.
  - intros text Hfile. unfold file_of in Hfile.
    destruct (params_dir st) as [files|] eqn:Hdir; [|done]. cbn in Hfile. split.
    + rewrite (get_run _ _ _ p) by done.
      unfold refresh_due. rewrite orb_true_r, Hdir, Hfile. cbn zeta.
      unfold after_read, after_test, validated. rewrite Hstatic.
      destruct (json_loads text) as [c|].
      * destruct (is_valid p c); eexists _, _; (split; [done|]);
          erewrite new_events_app by (cbn; by rewrite <-?app_assoc); set_solver.
      * rewrite Hdef. eexists _, _. split; [done|].
        erewrite new_events_app by (cbn; by rewrite <-?app_assoc). set_solver.
    + destruct (_get_all_params_run st (initialized_valid _ Hinit))
        as (acc & files' & evs & Hrun & _ & _ & Hreads).
      unfold get. rewrite bind_run, Hrun, mret_run. eexists _, _. split; [done|].
      rewrite (new_events_app _ _ evs) by done. apply Hreads.
      rewrite Hdir. cbn. unfold load_of, loadable. rewrite Hdot, Hp. cbn.
      rewrite Hfile. eauto.
Qed.

(** C10.  [get(force_update=True)] without a key rebuilds the cache from
    the directory alone: the cache then holds exactly the registered,
    non-dot files, each with its decoded value or, if malformed, the
    default.  A registered key without a file is dropped from the cache, is
    missing from the returned mapping, and still has no file. *)
Theorem get_all_forced_rebuilds_from_files st :
  initialized st →
  let files := default ∅ (params_dir st) in
  ∃ m st',
    get None true st = (Ok (all_params m), st') ∧
    m = visible (fork_params st) (params st') ∧
    (∀ k, params st' !! k =
          (fun pt => loaded_value pt.1 pt.2) <$> load_of (fork_params st) files k) ∧
    (∀ k p, dict_get k (fork_params st) = Some p → files !! k = None →
            params st' !! k = None ∧ m !! k = None ∧ file_of st' k = None).
Proof.
  intros Hinit files. subst files.
  destruct (_get_all_params_run st (initialized_valid _ Hinit))
    as (acc & files' & evs & Hrun & Hacc & Hfiles & _). cbv zeta in *.
  unfold get. rewrite bind_run, Hrun, mret_run. eexists _, _. split; [done|].
  cbn [touch params set_params]. split; [done|]. split; [done|].
  intros k p Hp Hfile.
  assert (load_of (fork_params st) (default ∅ (params_dir st)) k = None) as Hload.
  { unfold load_of. destruct (loadable _ k); [|done]. cbn. by rewrite Hfile. }
  assert (acc !! k = None) as Hk by by rewrite Hacc, Hload.
  split; [done|]. split.
  - rewrite visible_lookup by by apply initialized_NoDup.
    rewrite Hp, Hk. by destruct (hidden p).
  - unfold file_of. cbn. by rewrite Hfiles, Hload.
Qed.
(** What construction does to a file whose key is listed in [_to_delete]:
    none of the listed keys is registered, so the file is neither loaded
    nor removed. *)
Lemma init_keeps_to_delete_files st files k text st' :
  params_dir st = Some files → k ∈ _to_delete st' → files !! k = Some text →
  __init__ st = (Ok tt, st') →
  file_of st' k = Some text ∧ params st' !! k = None.
Proof.
  intros Hdir Hk Hfile.
  destruct (init_run st) as (ps & files' & evs & Hrun & Hps & Hframe & _).
  rewrite Hrun. intros [= <-]. cbn in Hk. apply to_delete_unregistered in Hk.
  destruct (Hframe files Hdir) as [Hfiles _]. split.
  - unfold file_of. cbn. by rewrite Hfiles.
  - cbn. destruct (ps !! k) as [c|] eqn:Hc; [|done].
    destruct (Hps k) as [q Hq]; [eauto|]. congruence.
Qed.

End claims.


(** ** The properties on concrete runs *)

Ltac by_computation := vm_compute; first [reflexivity | discriminate | exact I].

Lemma put_then_forced_get_returns_witness :
  let v := VFloat (FDec false 12 (-1)) in
  is_valid (registry_entry "min_TR") v = true ∧
  ∃ st1 st2,
    put "min_TR" v installed = (Ok tt, st1) ∧
    file_of st1 "min_TR" = Some (json_dumps v) ∧
    get (Some "min_TR") true st1 = (Ok (one_value v), st2) ∧
    new_events st1 st2 = [EvRead (param_path "min_TR")].
Proof.
  split; [by_computation|].
  apply (put_then_forced_get_returns installed "min_TR" (registry_entry "min_TR")
           (VFloat (FDec false 12 (-1))));
    [by_computation..|apply (bool_decide_unpack _); by_computation].
Defined.


Lemma put_invalid_raises_unchanged_witness :
  is_valid (registry_entry "min_TR") (VBool true) = false ∧
  put "min_TR" (VBool true) installed = (Raise InvalidValueType, installed).
Proof.
  split; [by_computation|].
  apply (put_invalid_raises_unchanged installed "min_TR" (registry_entry "min_TR"));
    by_computation.
Defined.

Lemma get_repairs_malformed_file_witness :
  let st := edit_file "min_TR" "{bad" installed in
  let p := registry_entry "min_TR" in
  json_loads "{bad" = None ∧
  ∃ st',
    get (Some "min_TR") false st = (Ok (one_value (default_value p)), st') ∧
    file_of st' "min_TR" = Some (json_dumps (default_value p)) ∧
    json_loads (json_dumps (default_value p)) = Some (default_value p) ∧
    params st' !! "min_TR" = Some (default_value p) ∧
    (∀ k, k ≠ "min_TR" → file_of st' k = file_of st k).
Proof.
  intros st p. split; [by_computation|].
  apply (get_repairs_malformed_file st "min_TR" p false "{bad"); try by_computation.
  right. exists 1%Q. split; [by_computation|].
  apply Qle_bool_iff. by_computation.
Defined.

(** C5, counterexample.  After the file of [min_TR] has been removed, the
    read does not return [(None, False)]: it raises [FileNotFoundError], and
    so does a forced [get]. *)
Lemma read_param_missing_file_raises :
  let st := remove_file "min_TR" installed in
  file_of st "min_TR" = None ∧
  (_read_param "min_TR" st).1 = Raise (FileNotFoundError "min_TR") ∧
  (_read_param "min_TR" st).1 ≠ Ok (VNone, false) ∧
  (get (Some "min_TR") true st).1 = Raise (FileNotFoundError "min_TR").
Proof. repeat split; by_computation. Qed.

Lemma read_param_decode_failure_only_witness :
  let st := remove_file "min_TR" installed in
  _read_param "min_TR" st = (Raise (FileNotFoundError "min_TR"), st) ∧
  ∃ st', get (Some "min_TR") true st = (Raise (FileNotFoundError "min_TR"), st').
Proof.
  intros st.
  destruct (read_param_decode_failure_only st "min_TR") as (_ & Hmissing & Hget).
  split; [apply Hmissing; by_computation|].
  apply (Hget (registry_entry "min_TR") true); by_computation.
Defined.

(** C6, counterexample.  [upload_onroad] is static and cached as [True];
    once its file has been edited to [false], [get(key, force_update=True)]
    reads the file and returns [False], and [get(force_update=True)] reads it
    too. *)
Lemma static_forced_get_rereads_file :
  let st := edit_file "upload_onroad" "false" installed in
  static (registry_entry "upload_onroad") = true ∧
  params st !! "upload_onroad" = Some (VBool true) ∧
  (get (Some "upload_onroad") true st).1 = Ok (one_value (VBool false)) ∧
  new_events st (get (Some "upload_onroad") true st).2
  = [EvRead (param_path "upload_onroad")] ∧
  EvRead (param_path "upload_onroad") ∈ new_events st (get None true st).2 ∧
  params (get None true st).2 !! "upload_onroad" = Some (VBool false).
Proof.
  repeat split; try by_computation.
  apply (bool_decide_unpack _). by_computation.
Qed.

Lemma static_read_only_when_forced_witness :
  let st := edit_file "upload_onroad" "false" installed in
  (∀ r st', get (Some "upload_onroad") false st = (r, st') →
     params_dir st' = params_dir st ∧ params st' = params st ∧
     ticks st' = ticks st ∧
     ∀ e, e ∈ new_events st st' → ∃ text, e = EvPrint text) ∧
  (∀ text, file_of st "upload_onroad" = Some text →
     (∃ r st', get (Some "upload_onroad") true st = (Ok r, st') ∧
               EvRead (param_path "upload_onroad") ∈ new_events st st') ∧
     (∃ m st', get None true st = (Ok (all_params m), st') ∧
               EvRead (param_path "upload_onroad") ∈ new_events st st')).
Proof.
  apply (static_read_only_when_forced _ "upload_onroad" (registry_entry "upload_onroad"));
    by_computation.
Defined.

(** C7.  A device whose parameters directory holds the file [use_lqr],
    a key listed in [_to_delete]: construction succeeds, the key is not in
    the cache, and the file is still there with its text. *)
Theorem to_delete_file_survives_init :
  let st := boot (Some {["use_lqr" := "true"]}) None in
  (__init__ st).1 = Ok tt ∧
  "use_lqr" ∈ _to_delete (__init__ st).2 ∧
  file_of st "use_lqr" = Some "true" ∧
  file_of (__init__ st).2 "use_lqr" = Some "true" ∧
  params (__init__ st).2 !! "use_lqr" = None ∧
  forallb (fun e => negb (bool_decide (e = EvRemove (param_path "use_lqr"))))
    (trace (__init__ st).2) = true.
Proof.
  repeat split; try by_computation.
  apply (bool_decide_unpack _). by_computation.
Qed.





Lemma get_all_forced_rebuilds_from_files_witness :
  let st := remove_file "min_TR" installed in
  params st !! "min_TR" = Some (VFloat (FDec false 9 (-1))) ∧
  ∃ m st',
    get None true st = (Ok (all_params m), st') ∧
    params st' !! "min_TR" = None ∧ m !! "min_TR" = None ∧
    file_of st' "min_TR" = None.
Proof.
  intros st. split; [by_computation|].
  destruct (get_all_forced_rebuilds_from_files st) as (m & st' & Hrun & _ & _ & Hdrop);
    [by_computation|].
  exists m, st'. split; [exact Hrun|].
  apply (Hdrop "min_TR" (registry_entry "min_TR")); by_computation.
Defined.

(** ** Further properties of the code *)

Section further.
Context `{Json}.

(** X1.  The constructor's assertion makes a declaration accept its own
    default, unless the default is a list: the list marker is removed after
    the assertion has passed. *)
Theorem param_accepts_own_default default allowed description static live hidden p :
  Param_init default allowed description static live hidden = Ok p →
  (type_of default ≠ type_list → is_valid p (default_value p) = true) ∧
  (type_of default = type_list → NoDup (declared_types allowed) →
   declared_types allowed ≠ [] → is_valid p (default_value p) = false).
Proof.
  unfold Param_init. set (declared := declared_types allowed).
  destruct (negb (Nat.eqb (length declared) 0)) eqn:Hhas; cbn [andb].
  - destruct (bool_decide (type_of default ∈ declared)) eqn:Hin; [|done].
    cbn [negb]. intros [= <-]. apply bool_decide_eq_true in Hin.
    unfold is_valid. cbn [has_allowed_types allowed_types default_value].
    rewrite ?Hhas. cbn [negb]. split.
    + intros Hne. apply bool_decide_eq_true.
      destruct (bool_decide (type_list ∈ declared)); [|done].
      by apply list_remove_other.
    + intros Hlist Hnd _. apply bool_decide_eq_false.
      rewrite Hlist in *. rewrite bool_decide_eq_true_2 by done.
      by apply list_remove_NoDup.
  - intros [= <-]. unfold is_valid. cbn [has_allowed_types]. rewrite ?Hhas. cbn.
    split; [done|]. intros _ _ Hne. destruct declared; [done|]. done.
Qed.

(** X2.  [get] and [put] of a key that is not registered raise the exception
    of [_check_key_exists], which names the method and the key, before
    anything else happens: the state is unchanged. *)
Theorem unknown_key_raises st key force_update v :
  dict_get key (fork_params st) = None →
  get (Some key) force_update st = (Raise (UnknownParameter "get" key), st) ∧
  put key v st = (Raise (UnknownParameter "put" key), st).
Proof.
  intros Hkey. unfold get, put, _check_key_exists, UnknownParameter. munfold.
  by rewrite Hkey.
Qed.



(** X5.  An edit of a file from outside is picked up by the next [get] that
    refreshes: when the text decodes to a value valid for the key, that value
    is returned and cached, the only file access is the read, and the
    directory is left as it was. *)
Theorem get_refresh_returns_file_value st key p force_update text v :
  initialized st → dict_get key (fork_params st) = Some p →
  file_of st key = Some text → json_loads text = Some v → is_valid p v = true →
  refresh_due p st force_update = true →
  ∃ st',
    get (Some key) force_update st = (Ok (one_value v), st') ∧
    params st' = <[key := v]> (params st) ∧
    params_dir st' = params_dir st ∧
    new_events st st' = [EvRead (param_path key)].
Proof.
  intros Hinit Hp Hfile Hloads Hvalid Hdue.
  pose proof (initialized_param_ok _ _ _ Hinit Hp) as Hok.
  unfold file_of in Hfile. destruct (params_dir st) as [files|] eqn:Hdir; [|done].
  cbn in Hfile.
  rewrite (get_run _ _ _ p), Hdue, Hdir, Hfile, Hloads by done. cbn zeta.
  unfold validated. rewrite Hvalid. eexists. split; [done|].
  unfold after_read, after_test. destruct (static p); cbn; rewrite Hdir;
    (split; [done|]); (split; [done|]); by apply new_events_app.
Qed.

(** X6.  [put] only touches its own key: one file is written, no file is read,
    the clock is not read, and the cache entries and files of the other keys
    are as before. *)
Theorem put_only_touches_key st key p v :
  dict_get key (fork_params st) = Some p → is_valid p v = true →
  is_Some (params_dir st) → valid_name key = true →
  ∃ st',
    put key v st = (Ok tt, st') ∧
    params st' !! key = Some v ∧ file_of st' key = Some (json_dumps v) ∧
    (∀ k, k ≠ key → params st' !! k = params st !! k ∧ file_of st' k = file_of st k) ∧
    new_events st st' = [EvWrite (param_path key) (json_dumps v)] ∧
    fork_params st' = fork_params st ∧ ticks st' = ticks st.
Proof.
  intros Hp Hvalid [files Hdir] Hname.
  rewrite (put_run _ _ _ p), Hvalid, Hdir, Hname by done. cbn zeta.
  eexists. split; [done|]. unfold file_of. cbn. rewrite Hdir. cbn.
  rewrite !lookup_insert_eq. split; [done|]. split; [done|]. split.
  - intros k Hne. by rewrite !lookup_insert_ne.
  - split; [by apply new_events_app|done].
Qed.

(** X7.  [put] updates the cache before it writes the file. When the
    parameters directory is missing the write raises [FileNotFoundError], but
    the cache already holds the new value: a following [get] that does not
    refresh returns a value that was never stored. *)
Theorem put_without_directory_caches_anyway st key p v :
  initialized st → dict_get key (fork_params st) = Some p → is_valid p v = true →
  params_dir st = None →
  ∃ st',
    put key v st = (Raise (FileNotFoundError key), st') ∧
    params st' = <[key := v]> (params st) ∧ params_dir st' = None ∧
    (refresh_due p st' false = false →
     (get (Some key) false st').1 = Ok (one_value v)).
Proof.
  intros Hinit Hp Hvalid Hdir.
  pose proof (initialized_param_ok _ _ _ Hinit Hp) as Hok.
  rewrite (put_run _ _ _ p), Hvalid, Hdir by done. cbn zeta.
  eexists. split; [done|]. split; [done|]. split; [done|].
  intros Hdue. rewrite (get_run _ _ _ p), Hdue by done.
  cbn [params set_params]. rewrite lookup_insert_eq. unfold validated.
  by rewrite Hvalid.
Qed.

(** X8.  After a [put], [get] of the same key returns the value put, whether
    or not it refreshes: the cache and the file agree. *)
Theorem put_then_get_returns st key p v force_update :
  initialized st → dict_get key (fork_params st) = Some p →
  is_valid p v = true → is_Some (params_dir st) →
  ∃ st1 st2,
    put key v st = (Ok tt, st1) ∧
    get (Some key) force_update st1 = (Ok (one_value v), st2) ∧
    params st2 !! key = Some v ∧ file_of st2 key = Some (json_dumps v) ∧
    ∀ e, e ∈ new_events st1 st2 → e = EvRead (param_path key).
Proof.
  intros Hinit Hp Hvalid [files Hdir].
  pose proof (initialized_param_ok _ _ _ Hinit Hp) as Hok.
  pose proof Hok as (Hname & _ & Htypes & Hscalar & _ & _)%param_ok_inv.
  pose proof (valid_scalar _ _ Htypes Hscalar Hvalid) as Hv.
  rewrite (put_run _ _ _ p), Hvalid, Hdir, Hname by done. cbn zeta.
  set (s1 := set_params_dir _ _).
  assert (params_dir s1 = Some (<[key := json_dumps v]> files)) as Hdir1 by done.
  assert (params s1 !! key = Some v) as Hc1 by (cbn; apply lookup_insert_eq).
  assert (dict_get key (fork_params s1) = Some p) as Hp1 by done.
  clearbody s1. exists s1.
  rewrite (get_run _ _ _ p) by done.
  rewrite Hdir1, lookup_insert_eq, json_loads_dumps, Hc1 by done. cbn zeta.
  unfold validated. rewrite Hvalid.
  destruct (refresh_due p _ force_update); eexists; (split; [done|]).
  - split; [done|]. cbn [params set_params]. rewrite lookup_insert_eq.
    split; [done|]. split.
    + unfold file_of, after_read, after_test.
      destruct (static p); cbn; rewrite Hdir1; cbn; apply lookup_insert_eq.
    + rewrite (new_events_app _ _ [EvRead (param_path key)]).
      * by intros e ->%list_elem_of_singleton.
      * unfold after_read, after_test. by destruct (static p).
  - split; [done|]. split; [|split].
    + unfold after_test. by destruct (static p).
    + unfold file_of, after_test.
      destruct (static p); cbn; rewrite Hdir1; cbn; apply lookup_insert_eq.
    + rewrite (new_events_app _ _ []).
      * by intros e ?%elem_of_nil.
      * unfold after_test. destruct (static p); cbn; by rewrite app_nil_r.
Qed.

(** X9.  [get()] without [force_update] is a pure read of the cache: the state
    is unchanged, and the mapping returned holds exactly the cached values of
    the registered keys that are not hidden. *)
Theorem get_all_unforced_hides_hidden st :
  initialized st →
  ∃ m,
    get None false st = (Ok (all_params m), st) ∧
    ∀ k v, m !! k = Some v ↔
           ∃ p, dict_get k (fork_params st) = Some p ∧ hidden p = false ∧
                params st !! k = Some v.
Proof.
  intros Hinit. exists (visible (fork_params st) (params st)).
  split; [reflexivity|]. intros k v.
  rewrite visible_lookup by by apply initialized_NoDup.
  destruct (dict_get k (fork_params st)) as [p|]; [|by split; [|intros (? & ? & _)]].
  destruct (hidden p) eqn:Hh.
  - split; [done|]. intros (q & [= <-] & ? & _). congruence.
  - split; [by eauto|]. by intros (q & [= <-] & _ & ?).
Qed.

(** X10.  [_write_param] followed by [_read_param]: for a key that names a
    file and a scalar value, the read returns the value written, with the
    success flag, and the files of the other keys are as before. *)
Theorem write_then_read_param st key v :
  is_Some (params_dir st) → valid_name key = true → scalar v = true →
  ∃ st1 st2,
    _write_param key v st = (Ok tt, st1) ∧
    _read_param key st1 = (Ok (v, true), st2) ∧
    (∀ k, k ≠ key → file_of st2 k = file_of st k) ∧
    params st2 = params st.
Proof.
  intros [files Hdir] Hname Hv.
  rewrite (_write_param_run _ _ _ files) by done. eexists _, _. split; [done|].
  rewrite _read_param_run. unfold file_of. cbn. rewrite lookup_insert_eq.
  rewrite json_loads_dumps by done. split; [done|]. split; [|done].
  intros k Hne. rewrite Hdir. cbn. by rewrite lookup_insert_ne.
Qed.

(** X11.  A registered key whose file is missing is dropped from the cache by
    [get(force_update=True)]; a [get] of that key afterwards raises:
    [FileNotFoundError] when it refreshes, [KeyError] from the cache lookup
    when it does not. *)
Theorem get_after_rebuild_without_file_raises st key p force_update :
  initialized st → dict_get key (fork_params st) = Some p →
  file_of st key = None →
  ∃ m st1 st2,
    get None true st = (Ok (all_params m), st1) ∧
    get (Some key) force_update st1
    = (Raise (if refresh_due p st1 force_update then FileNotFoundError key
              else KeyError key), st2).
Proof.
  intros Hinit Hp Hfile.
  pose proof (initialized_param_ok _ _ _ Hinit Hp) as Hok.
  destruct (_get_all_params_run st (initialized_valid _ Hinit))
    as (acc & files' & evs & Hrun & Hacc & Hfiles & _). cbv zeta in *.
  assert (load_of (fork_params st) (default ∅ (params_dir st)) key = None) as Hload.
  { unfold load_of. destruct (loadable _ key); [|done]. cbn.
    unfold file_of in Hfile.
    destruct (params_dir st) as [files|]; cbn in *; [by rewrite Hfile|].
    by rewrite lookup_empty. }
  assert (default ∅ (params_dir st) !! key = None) as Hnone.
  { unfold file_of in Hfile. destruct (params_dir st) as [files|]; cbn in *; [done|].
    apply lookup_empty. }
  unfold get at 1. rewrite bind_run, Hrun, mret_run.
  set (s1 := touch acc files' evs st).
  assert (dict_get key (fork_params s1) = Some p) as Hp1 by done.
  assert (params_dir s1 = Some files') as Hdir1 by done.
  assert (params s1 !! key = None) as Hc1.
  { cbn [s1 touch params set_params]. by rewrite Hacc, Hload. }
  assert (files' !! key = None) as Hf1 by by rewrite Hfiles, Hload.
  exists (visible (fork_params st) acc), s1, (after_test p s1).
  split; [reflexivity|]. clearbody s1.
  rewrite (get_run _ _ _ p), Hdir1, Hf1, Hc1 by done.
  by destruct (refresh_due p s1 force_update).
Qed.

(** X12.  When the parameters directory has disappeared,
    [get(force_update=True)] creates it again, empty, and empties the cache:
    the mapping returned is empty, no default is written, and the legacy file
    is not looked at. *)
Theorem get_all_forced_without_directory st :
  initialized st → params_dir st = None →
  ∃ st',
    get None true st = (Ok (all_params ∅), st') ∧
    params st' = ∅ ∧ params_dir st' = Some ∅ ∧
    new_events st st' = [EvExists PARAMS_DIR; EvMakedirs; EvListdir].
Proof.
  intros Hinit Hdir.
  assert (∀ fp : list (string * Param), visible fp ∅ = ∅) as Hvis.
  { intros fp. unfold visible. induction fp as [|[k p] fp IH]; [done|]. cbn [foldl fst].
    by rewrite lookup_empty. }
  unfold get, _get_all_params, _load_params.
  rewrite !bind_run, os_path_exists_run, Hdir.
  rewrite bool_decide_eq_false_2 by (by intros []).
  unfold os_makedirs, os_listdir. munfold. cbn. rewrite map_to_list_empty. cbn.
  fold (visible (fork_params st) ∅). rewrite Hvis.
  eexists. split; [reflexivity|]. split; [done|]. split; [done|].
  apply new_events_app. cbn. by rewrite <-!app_assoc.
Qed.


(** X14.  When the cache and the file of a key agree on a valid value, [get]
    returns that value whether it refreshes or not; the cache and the
    directory are unchanged, nothing is written or printed, and a coherent
    store stays coherent. *)
Theorem get_when_cache_and_file_agree st key p force_update c text :
  initialized st → dict_get key (fork_params st) = Some p →
  params st !! key = Some c → is_valid p c = true →
  file_of st key = Some text → json_loads text = Some c →
  ∃ st',
    get (Some key) force_update st = (Ok (one_value c), st') ∧
    params st' = params st ∧ params_dir st' = params_dir st ∧
    (∀ e, e ∈ new_events st st' → e = EvRead (param_path key)) ∧
    (coherent st → coherent st').
Proof.
  intros Hinit Hp Hc Hv Hf Hl.
  pose proof (initialized_param_ok _ _ _ Hinit Hp) as Hok.
  assert (∃ st', get (Some key) force_update st = (Ok (one_value c), st') ∧
                 params st' = params st ∧ params_dir st' = params_dir st ∧
                 (∀ e, e ∈ new_events st st' → e = EvRead (param_path key)))
    as (st' & Hrun & Hps & Hdir' & Hevs).
  { rewrite (get_run _ _ _ p) by done.
    unfold file_of in Hf. destruct (params_dir st) as [files|] eqn:Hdir; [|done].
    cbn in Hf. rewrite Hf, Hl, Hc. cbn zeta. unfold validated. rewrite Hv.
    destruct (refresh_due p st force_update); eexists; (split; [reflexivity|]).
    - split; [|split].
      + unfold after_read, after_test. destruct (static p); cbn; by apply insert_id.
      + unfold after_read, after_test. by destruct (static p).
      + rewrite (new_events_app _ _ [EvRead (param_path key)]).
        * by intros e ->%list_elem_of_singleton.
        * unfold after_read, after_test. by destruct (static p).
    - split; [|split].
      + unfold after_test. by destruct (static p).
      + unfold after_test. by destruct (static p).
      + rewrite (new_events_app _ _ []).
        * by intros e ?%elem_of_nil.
        * unfold after_test. destruct (static p); cbn; by rewrite app_nil_r. }
  exists st'. do 4 (split; [done|]).
  intros Hco. apply (coherent_ext st); [done|by eapply get_initialized|].
  intros k _. unfold file_of. by rewrite Hps, Hdir'.
Qed.

(** X15.  [put] of a valid value caches it and keeps a coherent store
    coherent. *)
Theorem put_keeps_coherent st key p v :
  initialized st → dict_get key (fork_params st) = Some p →
  is_valid p v = true → is_Some (params_dir st) →
  ∃ st',
    put key v st = (Ok tt, st') ∧ params st' !! key = Some v ∧
    (coherent st → coherent st').
Proof.
  intros Hinit Hp Hvalid [files Hdir].
  pose proof (initialized_param_ok _ _ _ Hinit Hp) as Hok.
  pose proof Hok as (Hname & _ & Htypes & Hscalar & _ & _)%param_ok_inv.
  rewrite (put_run _ _ _ p), Hvalid, Hdir, Hname by done. cbn zeta.
  eexists. split; [done|]. split; [by cbn; rewrite lookup_insert_eq|].
  intros [_ Hall]. split; [done|]. intros k q Hq. cbn in Hq. unfold file_of. cbn.
  destruct (decide (k = key)) as [->|Hne].
  - rewrite !lookup_insert_eq. exists v, (json_dumps v).
    assert (q = p) as -> by congruence. repeat split; try done.
    apply json_loads_dumps. by eapply valid_scalar.
  - rewrite !lookup_insert_ne by done.
    destruct (Hall k q Hq) as (c' & text' & Hc' & Hv' & Hf' & Hl').
    unfold file_of in Hf'. rewrite Hdir in Hf'. by exists c', text'.
Qed.

(** X16.  A value put survives a restart: constructing the store again on the
    device as [put] left it caches the value put and leaves its file as
    written. *)
Theorem put_survives_restart st key p v :
  initialized st → dict_get key (fork_params st) = Some p →
  is_valid p v = true → is_Some (params_dir st) →
  ∃ st1 st2,
    put key v st = (Ok tt, st1) ∧ __init__ st1 = (Ok tt, st2) ∧
    params st2 !! key = Some v ∧ file_of st2 key = Some (json_dumps v).
Proof.
  intros Hinit Hp Hvalid [files Hdir].
  pose proof (initialized_param_ok _ _ _ Hinit Hp) as Hok.
  pose proof Hok as (Hname & _ & Htypes & Hscalar & _ & _)%param_ok_inv.
  pose proof (valid_scalar _ _ Htypes Hscalar Hvalid) as Hv.
  rewrite (put_run _ _ _ p), Hvalid, Hdir, Hname by done. cbn zeta.
  set (s1 := set_params_dir _ _).
  destruct (init_full s1) as (listed & ps & files2 & evs & Hrun & Hlists & Hreg & _).
  unfold lists in Hlists. cbn in Hlists. subst listed.
  assert (dict_get key registry = Some (set_last_read (-1) p)) as Hr.
  { rewrite <-Hinit, dict_get_map, Hp. done. }
  destruct (Hreg _ _ Hr) as [Hc Hf]. rewrite lookup_insert_eq in Hc, Hf.
  cbn in Hc. unfold settled_text, kept in Hf.
  rewrite json_loads_dumps in Hc, Hf by done. unfold settled in Hc.
  assert (is_valid (set_last_read (-1) p) v = true) as Hvalid' by done.
  rewrite Hvalid' in Hc, Hf.
  exists s1. eexists. split; [done|]. split; [exact Hrun|]. by split.
Qed.

(** X17.  Construction on an existing directory, key by key: a registered key
    is cached with the value its file decodes to when that value is valid for
    it, and with its default when the file is missing, malformed or ill-typed,
    in which case the file is (re)written with the default; keys that are not
    registered are not cached and their files are untouched. *)
Theorem init_on_existing_directory st files :
  params_dir st = Some files →
  ∃ st',
    __init__ st = (Ok tt, st') ∧
    (∀ k p, dict_get k registry = Some p →
       params st' !! k = Some (settled p (files !! k ≫= json_loads)) ∧
       file_of st' k = Some (settled_text p (files !! k))) ∧
    (∀ k, dict_get k registry = None →
       params st' !! k = None ∧ file_of st' k = files !! k).
Proof.
  intros Hdir.
  destruct (init_full st) as (listed & ps & files2 & evs & Hrun & Hlists & Hreg & Hun).
  unfold lists in Hlists. cbn in Hlists. rewrite Hdir in Hlists. subst listed.
  eexists. split; [exact Hrun|]. split; [exact Hreg|exact Hun].
Qed.

(** X18.  The first construction on a device that has a legacy file and no
    parameters directory migrates the file: each legacy key that is registered
    is cached with its legacy value when that value is valid for it (its
    default otherwise), the registered keys the legacy file lacks get their
    defaults, the legacy keys that are not registered get a file but no cache
    entry, and the sentinel is created. *)
Theorem init_migrates_legacy_file st text d :
  params_dir st = None → old_params_file st = Some text →
  json_loads text = Some (VDict d) →
  NoDup d.*1 → Forall (fun k => valid_name k = true) d.*1 →
  ∃ st',
    __init__ st = (Ok tt, st') ∧
    file_of st' ".imported" = Some "" ∧
    (∀ k p v, dict_get k registry = Some p → dict_get k d = Some v →
       scalar v = true →
       params st' !! k = Some (if is_valid p v then v else default_value p)) ∧
    (∀ k p, dict_get k registry = Some p → dict_get k d = None →
       params st' !! k = Some (default_value p)) ∧
    (∀ k v, dict_get k registry = None → dict_get k d = Some v → k ≠ ".imported" →
       params st' !! k = None ∧ file_of st' k = Some (json_dumps v)).
Proof.
  intros Hdir Hold Hloads Hnd Hnames.
  destruct (init_full st) as (listed & ps & files2 & evs & Hrun & Hlists & Hreg & Hun).
  unfold lists in Hlists. cbn [init_state params_dir set_fork_params set_to_reset
    set_to_delete] in Hlists. rewrite Hdir in Hlists. destruct Hlists as [evs1 Himp].
  destruct (_import_params_ok (fresh_dir (init_state st)) ∅ text d)
    as (files' & evs' & Himp' & Hsent & Hfiles); try done.
  rewrite Himp' in Himp. injection Himp as Himp _.
  assert (listed = files') as -> by congruence. clear Himp.
  eexists. split; [exact Hrun|]. unfold file_of. cbn [touch params params_dir
    set_params set_params_dir]. cbn [mbind option_bind].
  split; [|split; [|split]].
  - destruct (Hun ".imported") as [_ ->]; [by vm_compute|]. done.
  - intros k p v Hp Hv Hs. destruct (Hreg k p Hp) as [-> _].
    pose proof (registry_registry_valid _ _ Hp) as (_ & Hdot & _)%param_ok_inv.
    rewrite Hfiles, Hv by (by intros ->). cbn.
    by rewrite json_loads_dumps.
  - intros k p Hp Hv. destruct (Hreg k p Hp) as [-> _].
    pose proof (registry_registry_valid _ _ Hp) as (_ & Hdot & _)%param_ok_inv.
    rewrite Hfiles, Hv by (by intros ->). by rewrite lookup_empty.
  - intros k v Hk Hv Hne. destruct (Hun k Hk) as [-> ->]. split; [done|].
    by rewrite Hfiles, Hv.
Qed.

(** X19.  The import proper: given a directory without the sentinel and a
    legacy file that holds a JSON object whose keys are distinct and name
    files, [_import_params] writes one file per key with the JSON text of its
    value, creates the empty sentinel, and leaves the cache and the legacy
    file alone. A second call then finds the sentinel and does nothing beyond
    the two existence checks. *)
Theorem import_writes_each_key s text d :
  is_Some (params_dir s) → file_of s ".imported" = None →
  old_params_file s = Some text → json_loads text = Some (VDict d) →
  NoDup d.*1 → Forall (fun k => valid_name k = true) d.*1 →
  ∃ st1 st2,
    _import_params s = (Ok tt, st1) ∧
    file_of st1 ".imported" = Some "" ∧
    (∀ k, k ≠ ".imported" →
          file_of st1 k = match dict_get k d with
                          | Some v => Some (json_dumps v)
                          | None => file_of s k
                          end) ∧
    params st1 = params s ∧ old_params_file st1 = Some text ∧
    _import_params st1 = (Ok tt, st2) ∧
    params_dir st2 = params_dir st1 ∧
    new_events st1 st2 = [EvExists OLD_PARAMS_FILE; EvExists IMPORTED_PATH].
Proof.
  intros [files Hdir] Hsent Hold Hloads Hnd Hnames.
  unfold file_of in Hsent. rewrite Hdir in Hsent. cbn in Hsent.
  destruct (_import_params_ok s files text d)
    as (files' & evs' & Himp & Hsent' & Hfiles); try done.
  rewrite Himp. eexists _, _. split; [done|].
  unfold file_of. rewrite Hdir. cbn [touch params params_dir old_params_file
    set_params set_params_dir set_trace mbind option_bind].
  split; [done|]. split; [done|]. split; [done|]. split; [done|].
  rewrite (_import_params_imported _ text).
  - split; [done|]. split; [done|]. by apply new_events_app.
  - done.
  - unfold file_of. cbn. by rewrite Hsent'.
Qed.

(** X20.  The pass over the cache made by [_delete_and_reset]: a cached key
    listed in [_to_delete] loses its cache entry and its file; a cached,
    registered key listed in [_to_reset] (and not in [_to_delete]) gets its
    default, in the cache and in its file; everything else is left alone,
    including the file of a key that is listed in [_to_delete] but not cached.
    *)
Theorem delete_and_reset_contract st :
  is_Some (params_dir st) →
  (∀ k, is_Some (params st !! k) → k ∈ _to_delete st → is_Some (file_of st k)) →
  (∀ k, is_Some (params st !! k) → k ∈ _to_reset st → valid_name k = true) →
  ∃ st',
    _delete_and_reset st = (Ok tt, st') ∧
    (∀ k, is_Some (params st !! k) → k ∈ _to_delete st →
       params st' !! k = None ∧ file_of st' k = None) ∧
    (∀ k p, is_Some (params st !! k) → k ∉ _to_delete st → k ∈ _to_reset st →
       dict_get k (fork_params st) = Some p →
       params st' !! k = Some (default_value p) ∧
       file_of st' k = Some (json_dumps (default_value p))) ∧
    (∀ k, params st !! k = None →
       params st' !! k = None ∧ file_of st' k = file_of st k) ∧
    (∀ k, k ∉ _to_delete st →
       k ∉ _to_reset st ∨ dict_get k (fork_params st) = None →
       params st' !! k = params st !! k ∧ file_of st' k = file_of st k).
Proof.
  intros [files Hdir] Hdel Hreset.
  destruct (_delete_and_reset_run st files)
    as (ps' & files' & evs & Hrun & Hswept & Hframe); try done.
  { intros k Hk Hd. specialize (Hdel k Hk Hd). unfold file_of in Hdel.
    by rewrite Hdir in Hdel. }
  { intros k Hk _ Hr _. by apply Hreset. }
  eexists. split; [exact Hrun|]. unfold file_of.
  cbn [touch params params_dir set_params set_params_dir mbind option_bind].
  split; [|split; [|split]].
  - intros k Hk Hd. specialize (Hswept k Hk). unfold swept in Hswept.
    rewrite bool_decide_eq_true_2 in Hswept by done. by injection Hswept as -> ->.
  - intros k p Hk Hd Hr Hp. specialize (Hswept k Hk). unfold swept in Hswept.
    rewrite bool_decide_eq_false_2, bool_decide_eq_true_2, Hp in Hswept by done.
    by injection Hswept as -> ->.
  - intros k Hk. destruct (Hframe k Hk) as [-> ->]. by rewrite Hdir.
  - intros k Hd Hr. destruct (params st !! k) as [c|] eqn:Hc.
    + assert (is_Some (params st !! k)) as Hk by by rewrite Hc.
      specialize (Hswept k Hk). unfold swept, file_of in Hswept.
      rewrite bool_decide_eq_false_2, Hc, Hdir in Hswept by done.
      destruct Hr as [Hr|Hr].
      * rewrite bool_decide_eq_false_2 in Hswept by done.
        cbn in Hswept. injection Hswept as -> ->. by rewrite Hdir.
      * rewrite Hr in Hswept. destruct (bool_decide _) in Hswept;
          cbn in Hswept; injection Hswept as -> ->; by rewrite Hdir.
    + destruct (Hframe k Hc) as [-> ->]. by rewrite Hdir.
Qed.

(** X21.  [_add_default_params]: afterwards every registered key is cached
    with a value valid for it. A cached value that was valid is kept and its
    file is not touched; a missing or ill-typed one is replaced by the
    default, which is also written to the file. Nothing changes at keys that
    are not registered, and the pass only prints and writes: it reads no file.
    *)
Theorem add_default_params_contract st :
  initialized st → is_Some (params_dir st) →
  ∃ st',
    _add_default_params st = (Ok tt, st') ∧
    (∀ k p, dict_get k (fork_params st) = Some p →
       ∃ c, params st' !! k = Some c ∧ is_valid p c = true ∧
         (kept p (params st !! k) = true →
            params st !! k = Some c ∧ file_of st' k = file_of st k) ∧
         (kept p (params st !! k) = false →
            c = default_value p ∧
            file_of st' k = Some (json_dumps (default_value p)))) ∧
    (∀ k, dict_get k (fork_params st) = None →
       params st' !! k = params st !! k ∧ file_of st' k = file_of st k) ∧
    Forall (fun e => print_or_write e = true) (new_events st st').
Proof.
  intros Hinit [files Hdir].
  destruct (_add_default_params_post st files)
    as (ps' & files' & evs & Hrun & Hreg & Hframe & Hevs); try done.
  { by apply initialized_valid. }
  { by apply initialized_NoDup. }
  eexists. split; [exact Hrun|]. unfold file_of. rewrite Hdir.
  cbn [touch params params_dir set_params set_params_dir mbind option_bind].
  split; [|split; [done|by rewrite (new_events_app _ _ evs)]].
  intros k p Hp. destruct (Hreg k p Hp) as [Hc Hf].
  pose proof (initialized_param_ok _ _ _ Hinit Hp) as Hok.
  eexists. split; [exact Hc|]. split; [by eapply settled_valid|].
  rewrite Hf. unfold settled, kept.
  destruct (params st !! k) as [v|]; [|by split].
  destruct (is_valid p v); by split.
Qed.

(** X22.  Construction is idempotent on the cache and the directory: a second
    construction on the device as the first one left it ends with the same
    cache and the same files. *)
Theorem init_twice_same_store st :
  ∃ st1 st2,
    __init__ st = (Ok tt, st1) ∧ __init__ st1 = (Ok tt, st2) ∧
    params st2 = params st1 ∧ params_dir st2 = params_dir st1.
Proof.
  destruct (init_full st) as (listed & ps & files & evs & Hrun & _ & Hreg & Hun).
  exists (touch ps files evs (init_state st)).
  destruct (init_full (touch ps files evs (init_state st)))
    as (listed2 & ps2 & files2 & evs2 & Hrun2 & Hlists & Hreg2 & Hun2).
  unfold lists in Hlists. cbn in Hlists. subst listed2.
  eexists. split; [exact Hrun|]. split; [exact Hrun2|].
  cbn [touch params params_dir set_params set_params_dir].
  assert (∀ k, ps2 !! k = ps !! k ∧ files2 !! k = files !! k) as Hsame.
  { intros k. destruct (dict_get k registry) as [p|] eqn:Hp.
    - destruct (Hreg k p Hp) as [Hc Hf]. destruct (Hreg2 k p Hp) as [-> ->].
      pose proof (registry_registry_valid _ _ Hp) as Hok.
      rewrite Hc, Hf. cbn [mbind option_bind].
      rewrite (settled_text_loads k) by done.
      unfold settled_text at 1. unfold kept. rewrite (settled_text_loads k) by done.
      unfold settled at 1 3. by rewrite (settled_valid k).
    - destruct (Hun k Hp) as [Hc _]. destruct (Hun2 k Hp) as [-> ->]. by rewrite Hc. }
  split; [apply map_eq; intros k; apply Hsame|].
  f_equal. apply map_eq. intros k. apply Hsame.
Qed.

(** X23.  [get(key)] is exception-safe, unlike [put]: when it raises (unknown
    key, missing file, key missing from the cache), the cache, the directory,
    the registry with its [last_read] stamps and the trace are as before the
    call; at most the clock has been read once. *)
Theorem get_raise_leaves_store_unchanged st key force_update e :
  initialized st → (get (Some key) force_update st).1 = Raise e →
  let st' := (get (Some key) force_update st).2 in
  params st' = params st ∧ params_dir st' = params_dir st ∧
  fork_params st' = fork_params st ∧ trace st' = trace st ∧
  (ticks st' = ticks st ∨ ticks st' = S (ticks st)).
Proof.
  intros Hinit. destruct (dict_get key (fork_params st)) as [p|] eqn:Hp.
  - pose proof (initialized_param_ok _ _ _ Hinit Hp) as Hok.
    rewrite (get_run _ _ _ p) by done.
    assert (params (after_test p st) = params st ∧
            params_dir (after_test p st) = params_dir st ∧
            fork_params (after_test p st) = fork_params st ∧
            trace (after_test p st) = trace st ∧
            (ticks (after_test p st) = ticks st ∨
             ticks (after_test p st) = S (ticks st))) as Htest.
    { unfold after_test. destruct (static p); cbn; auto 10. }
    unfold validated. destruct (refresh_due p st force_update).
    + destruct (params_dir st) as [files|]; [|by intros _].
      destruct (files !! key) as [text|]; [|by intros _]. cbn zeta.
      destruct (json_loads text) as [v|].
      * by destruct (is_valid p v).
      * by destruct (is_valid p (default_value p)).
    + destruct (params st !! key) as [c|]; [|by intros _].
      by destruct (is_valid p c).
  - unfold get, _check_key_exists. munfold. rewrite Hp. cbn. auto 10.
Qed.

End further.

(** ** The further properties on concrete runs *)

Lemma param_accepts_own_default_witness :
  ∃ p,
    Param_init (VFloat (FDec false 9 (-1))) (Types NUMBER) None false true false = Ok p ∧
    is_valid p (default_value p) = true.
Proof.
  eexists. split; [reflexivity|].
  eapply (param_accepts_own_default (VFloat (FDec false 9 (-1))) (Types NUMBER)
            None false true false); [reflexivity|discriminate].
Defined.

Lemma unknown_key_raises_witness :
  get (Some "camera_offset") false installed
  = (Raise (UnknownParameter "get" "camera_offset"), installed) ∧
  put "camera_offset" (VFloat (FDec false 6 (-2))) installed
  = (Raise (UnknownParameter "put" "camera_offset"), installed).
Proof. apply (unknown_key_raises installed "camera_offset"). by_computation. Defined.


Lemma get_refresh_returns_file_value_witness :
  let st := edit_file "min_TR" "1.2" installed in
  let v := VFloat (FDec false 12 (-1)) in
  ∃ st',
    get (Some "min_TR") true st = (Ok (one_value v), st') ∧
    params st' = <["min_TR" := v]> (params st) ∧
    params_dir st' = params_dir st ∧
    new_events st st' = [EvRead (param_path "min_TR")].
Proof.
  intros st v.
  apply (get_refresh_returns_file_value st "min_TR" (registry_entry "min_TR") true "1.2" v);
    by_computation.
Defined.

Lemma put_only_touches_key_witness :
  let v := VFloat (FDec false 12 (-1)) in
  ∃ st',
    put "min_TR" v installed = (Ok tt, st') ∧
    params st' !! "min_TR" = Some v ∧ file_of st' "min_TR" = Some (json_dumps v) ∧
    (∀ k, k ≠ "min_TR" →
          params st' !! k = params installed !! k ∧ file_of st' k = file_of installed k) ∧
    new_events installed st' = [EvWrite (param_path "min_TR") (json_dumps v)] ∧
    fork_params st' = fork_params installed ∧ ticks st' = ticks installed.
Proof.
  intros v.
  apply (put_only_touches_key installed "min_TR" (registry_entry "min_TR") v);
    [by_computation..|apply (bool_decide_unpack _); by_computation|by_computation].
Defined.

Lemma put_without_directory_caches_anyway_witness :
  let st := remove_dir installed in
  ∃ st',
    put "upload_onroad" (VBool false) st = (Raise (FileNotFoundError "upload_onroad"), st') ∧
    params st' = <["upload_onroad" := VBool false]> (params st) ∧
    params_dir st' = None ∧
    (refresh_due (registry_entry "upload_onroad") st' false = false →
     (get (Some "upload_onroad") false st').1 = Ok (one_value (VBool false))).
Proof.
  intros st.
  apply (put_without_directory_caches_anyway st "upload_onroad"
           (registry_entry "upload_onroad") (VBool false)); by_computation.
Defined.

Lemma put_then_get_returns_witness :
  ∃ st1 st2,
    put "upload_onroad" (VBool false) installed = (Ok tt, st1) ∧
    get (Some "upload_onroad") false st1 = (Ok (one_value (VBool false)), st2) ∧
    params st2 !! "upload_onroad" = Some (VBool false) ∧
    file_of st2 "upload_onroad" = Some (json_dumps (VBool false)) ∧
    ∀ e, e ∈ new_events st1 st2 → e = EvRead (param_path "upload_onroad").
Proof.
  apply (put_then_get_returns installed "upload_onroad" (registry_entry "upload_onroad")
           (VBool false) false);
    [by_computation..|apply (bool_decide_unpack _); by_computation].
Defined.

Lemma get_all_unforced_hides_hidden_witness :
  ∃ m,
    get None false installed = (Ok (all_params m), installed) ∧
    ∀ k v, m !! k = Some v ↔
           ∃ p, dict_get k (fork_params installed) = Some p ∧ hidden p = false ∧
                params installed !! k = Some v.
Proof. apply (get_all_unforced_hides_hidden installed). by_computation. Defined.

Lemma write_then_read_param_witness :
  ∃ st1 st2,
    _write_param "min_TR" (VInt 2) installed = (Ok tt, st1) ∧
    _read_param "min_TR" st1 = (Ok (VInt 2, true), st2) ∧
    (∀ k, k ≠ "min_TR" → file_of st2 k = file_of installed k) ∧
    params st2 = params installed.
Proof.
  apply (write_then_read_param installed "min_TR" (VInt 2));
    [apply (bool_decide_unpack _); by_computation|by_computation..].
Defined.

Lemma get_after_rebuild_without_file_raises_witness :
  let st := remove_file "upload_onroad" installed in
  ∃ m st1 st2,
    get None true st = (Ok (all_params m), st1) ∧
    get (Some "upload_onroad") false st1
    = (Raise (if refresh_due (registry_entry "upload_onroad") st1 false
              then FileNotFoundError "upload_onroad"
              else KeyError "upload_onroad"), st2).
Proof.
  intros st.
  apply (get_after_rebuild_without_file_raises st "upload_onroad"
           (registry_entry "upload_onroad") false); by_computation.
Defined.


Lemma get_when_cache_and_file_agree_witness :
  let c := VFloat (FDec false 9 (-1)) in
  ∃ st',
    get (Some "min_TR") true installed = (Ok (one_value c), st') ∧
    params st' = params installed ∧ params_dir st' = params_dir installed ∧
    (∀ e, e ∈ new_events installed st' → e = EvRead (param_path "min_TR")) ∧
    coherent st'.
Proof.
  intros c.
  destruct (get_when_cache_and_file_agree installed "min_TR" (registry_entry "min_TR")
              true c (json_dumps c))
    as (st' & Hrun & Hps & Hdir & Hevs & Hco); [by_computation..|].
  exists st'. do 4 (split; [done|]).
  apply Hco, (init_coherent (boot None None)).
Defined.

Lemma put_keeps_coherent_witness :
  ∃ st',
    put "min_TR" (VInt 2) installed = (Ok tt, st') ∧
    params st' !! "min_TR" = Some (VInt 2) ∧ coherent st'.
Proof.
  destruct (put_keeps_coherent installed "min_TR" (registry_entry "min_TR") (VInt 2))
    as (st' & Hrun & Hc & Hco);
    [by_computation..|apply (bool_decide_unpack _); by_computation|].
  exists st'. do 2 (split; [done|]).
  apply Hco, (init_coherent (boot None None)).
Defined.

Lemma put_survives_restart_witness :
  ∃ st1 st2,
    put "min_TR" (VInt 2) installed = (Ok tt, st1) ∧ __init__ st1 = (Ok tt, st2) ∧
    params st2 !! "min_TR" = Some (VInt 2) ∧
    file_of st2 "min_TR" = Some (json_dumps (VInt 2)).
Proof.
  apply (put_survives_restart installed "min_TR" (registry_entry "min_TR") (VInt 2));
    [by_computation..|apply (bool_decide_unpack _); by_computation].
Defined.

Lemma init_on_existing_directory_witness :
  let files : gmap string string := {["min_TR" := "1.2"]} in
  ∃ st',
    __init__ (boot (Some files) None) = (Ok tt, st') ∧
    (∀ k p, dict_get k registry = Some p →
       params st' !! k = Some (settled p (files !! k ≫= json_loads)) ∧
       file_of st' k = Some (settled_text p (files !! k))) ∧
    (∀ k, dict_get k registry = None →
       params st' !! k = None ∧ file_of st' k = files !! k).
Proof.
  intros files. apply (init_on_existing_directory (boot (Some files) None) files).
  reflexivity.
Defined.

Lemma init_migrates_legacy_file_witness :
  let d := [("min_TR", VFloat (FDec false 12 (-1))); ("use_lqr", VBool true)] in
  let st := boot None (Some (json_dumps (VDict d))) in
  ∃ st',
    __init__ st = (Ok tt, st') ∧
    file_of st' ".imported" = Some "" ∧
    (∀ k p v, dict_get k registry = Some p → dict_get k d = Some v →
       scalar v = true →
       params st' !! k = Some (if is_valid p v then v else default_value p)) ∧
    (∀ k p, dict_get k registry = Some p → dict_get k d = None →
       params st' !! k = Some (default_value p)) ∧
    (∀ k v, dict_get k registry = None → dict_get k d = Some v → k ≠ ".imported" →
       params st' !! k = None ∧ file_of st' k = Some (json_dumps v)).
Proof.
  intros d st.
  apply (init_migrates_legacy_file st (json_dumps (VDict d)) d);
    [reflexivity|reflexivity|by_computation|compute_done|repeat constructor].
Defined.

Lemma import_writes_each_key_witness :
  let d := [("min_TR", VFloat (FDec false 12 (-1))); ("use_lqr", VBool true)] in
  let text := json_dumps (VDict d) in
  let s := set_old_params_file (Some text) installed in
  ∃ st1 st2,
    _import_params s = (Ok tt, st1) ∧
    file_of st1 ".imported" = Some "" ∧
    (∀ k, k ≠ ".imported" →
          file_of st1 k = match dict_get k d with
                          | Some v => Some (json_dumps v)
                          | None => file_of s k
                          end) ∧
    params st1 = params s ∧ old_params_file st1 = Some text ∧
    _import_params st1 = (Ok tt, st2) ∧
    params_dir st2 = params_dir st1 ∧
    new_events st1 st2 = [EvExists OLD_PARAMS_FILE; EvExists IMPORTED_PATH].
Proof.
  intros d text s.
  apply (import_writes_each_key s text d);
    [apply (bool_decide_unpack _); by_computation|by_computation|reflexivity
    |by_computation|compute_done|repeat constructor].
Defined.

Lemma delete_and_reset_contract_witness :
  let st := mkState registry {["use_lqr" := VBool true; "min_TR" := VInt 2]}
              ["use_lqr"] ["min_TR"]
              (Some {["use_lqr" := "true"; "min_TR" := "2"]}) None uptime 0 [] in
  ∃ st',
    _delete_and_reset st = (Ok tt, st') ∧
    params st' !! "use_lqr" = None ∧ file_of st' "use_lqr" = None ∧
    params st' !! "min_TR" = Some (VFloat (FDec false 9 (-1))) ∧
    file_of st' "min_TR" = Some (json_dumps (VFloat (FDec false 9 (-1)))).
Proof.
  intros st.
  destruct (delete_and_reset_contract st) as (st' & Hrun & Hdel & Hreset & _).
  - apply (bool_decide_unpack _). by_computation.
  - intros k _ ->%list_elem_of_singleton. apply (bool_decide_unpack _). by_computation.
  - intros k _ ->%list_elem_of_singleton. by_computation.
  - exists st'. split; [exact Hrun|].
    destruct (Hdel "use_lqr") as [-> ->];
      [apply (bool_decide_unpack _); by_computation
      |apply (bool_decide_unpack _); by_computation|].
    split; [reflexivity|]. split; [reflexivity|].
    apply (Hreset "min_TR" (registry_entry "min_TR"));
      [apply (bool_decide_unpack _); by_computation
      |apply (bool_decide_unpack _); by_computation
      |apply (bool_decide_unpack _); by_computation
      |by_computation].
Defined.

Lemma add_default_params_contract_witness :
  let st := set_params {["min_TR" := VBool true]} installed in
  ∃ st',
    _add_default_params st = (Ok tt, st') ∧
    params st' !! "min_TR" = Some (VFloat (FDec false 9 (-1))) ∧
    params st' !! "dynamic_gas" = Some (VBool false).
Proof.
  intros st.
  destruct (add_default_params_contract st) as (st' & Hrun & Hreg & _ & _).
  - by_computation.
  - apply (bool_decide_unpack _). by_computation.
  - exists st'. split; [exact Hrun|]. split.
    + destruct (Hreg "min_TR" (registry_entry "min_TR")) as (c & Hc & _ & _ & Hd);
        [by_computation|].
      destruct Hd as [-> _]; [by_computation|]. exact Hc.
    + destruct (Hreg "dynamic_gas" (registry_entry "dynamic_gas")) as (c & Hc & _ & _ & Hd);
        [by_computation|].
      destruct Hd as [-> _]; [by_computation|]. exact Hc.
Defined.

Lemma get_all_forced_without_directory_witness :
  let st := remove_dir installed in
  ∃ st',
    get None true st = (Ok (all_params ∅), st') ∧
    params st' = ∅ ∧ params_dir st' = Some ∅ ∧
    new_events st st' = [EvExists PARAMS_DIR; EvMakedirs; EvListdir].
Proof.
  intros st. apply (get_all_forced_without_directory st); by_computation.
Defined.

Lemma get_raise_leaves_store_unchanged_witness :
  let st := remove_file "min_TR" installed in
  let st' := (get (Some "min_TR") true st).2 in
  (get (Some "min_TR") true st).1 = Raise (FileNotFoundError "min_TR") ∧
  params st' = params st ∧ params_dir st' = params_dir st ∧
  fork_params st' = fork_params st ∧ trace st' = trace st ∧
  (ticks st' = ticks st ∨ ticks st' = S (ticks st)).
Proof.
  intros st st'. split; [by_computation|].
  apply (get_raise_leaves_store_unchanged st "min_TR" true (FileNotFoundError "min_TR"));
    by_computation.
Defined.
